(** * ClaudeShield: policy engine, enforcement shell, rollback manager and
    orchestrator, embedded from the Go and bash sources.

    Go strings are byte sequences: they are modelled as [string] (a list of
    8-bit [ascii] characters).  Go packages become modules of the same name
    ([strings], [utf8], [unicode], [filepath], [json], [types], [policy],
    [shell], [sandbox], [rollback], [orchestrator]). *)

From Stdlib Require Import ZArith Ascii String Lia Bool.
From Stdlib Require DecimalString PrimFloat.
From stdpp Require Import gmap strings list.

Local Open Scope Z_scope.

(** The numeric value of a byte. *)
Definition byte_val (c : ascii) : Z := Z.of_N (N_of_ascii c).

(** Go [error] values.  [fmt.Errorf] keeps its format string and its string
    arguments unrendered; [ErrorfW] is [fmt.Errorf] with a final [%w] verb
    wrapping [cause].  [Panic] stands for a run-time panic (a nil pointer
    dereference), which ends the Go program instead of returning. *)
Inductive error : Type :=
| ErrBadPattern
| ExternalError (msg : string)
| Errorf (format : string) (args : list string)
| ErrorfW (format : string) (args : list string) (cause : error)
| Panic (msg : string).

(** ** Slices of strings *)

Module Slice.

(** [s[n:]] *)
Fixpoint drop (n : nat) (s : string) : string :=
  match n, s with
  | O, _ => s
  | S _, EmptyString => EmptyString
  | S k, String _ t => drop k t
  end.

(** [s[:n]] *)
Fixpoint take (n : nat) (s : string) : string :=
  match n, s with
  | O, _ => EmptyString
  | S _, EmptyString => EmptyString
  | S k, String c t => String c (take k t)
  end.

(** [s[i]], as a byte value; 0 out of range (never read there). *)
Definition at_ (s : string) (i : nat) : Z :=
  match String.get i s with
  | Some c => byte_val c
  | None => 0
  end.

Definition is_empty (s : string) : bool :=
  match s with EmptyString => true | _ => false end.

End Slice.

(** ** unicode/utf8 *)

Module utf8.

Definition RuneError : Z := 0xFFFD.
Definition RuneSelf : Z := 0x80.
Definition UTFMax : nat := 4.

(** The table [first] together with [acceptRanges]: for a leading byte,
    the size of the encoding and the accepted range of the second byte;
    [None] for a byte that cannot start a multi-byte encoding. *)
Definition first (b : Z) : option (nat * Z * Z) :=
  if b <? 0xC2 then None
  else if b <=? 0xDF then Some (2%nat, 0x80, 0xBF)
  else if b =? 0xE0 then Some (3%nat, 0xA0, 0xBF)
  else if b <=? 0xEC then Some (3%nat, 0x80, 0xBF)
  else if b =? 0xED then Some (3%nat, 0x80, 0x9F)
  else if b <=? 0xEF then Some (3%nat, 0x80, 0xBF)
  else if b =? 0xF0 then Some (4%nat, 0x90, 0xBF)
  else if b <=? 0xF3 then Some (4%nat, 0x80, 0xBF)
  else if b =? 0xF4 then Some (4%nat, 0x80, 0x8F)
  else None.

Definition cont (b : Z) : bool := (0x80 <=? b) && (b <=? 0xBF).

Definition DecodeRuneInString (s : string) : Z * nat :=
  match s with
  | EmptyString => (RuneError, 0%nat)
  | String c0 _ =>
    let s0 := byte_val c0 in
    if s0 <? RuneSelf then (s0, 1%nat)
    else
      match first s0 with
      | None => (RuneError, 1%nat)
      | Some (sz, lo, hi) =>
        if (String.length s <? sz)%nat then (RuneError, 1%nat)
        else
          let s1 := Slice.at_ s 1 in
          if (s1 <? lo) || (hi <? s1) then (RuneError, 1%nat)
          else if (sz <=? 2)%nat then
            (Z.lor (Z.shiftl (Z.land s0 0x1F) 6) (Z.land s1 0x3F), 2%nat)
          else
            let s2 := Slice.at_ s 2 in
            if negb (cont s2) then (RuneError, 1%nat)
            else if (sz <=? 3)%nat then
              (Z.lor (Z.shiftl (Z.land s0 0x0F) 12)
                 (Z.lor (Z.shiftl (Z.land s1 0x3F) 6) (Z.land s2 0x3F)),
               3%nat)
            else
              let s3 := Slice.at_ s 3 in
              if negb (cont s3) then (RuneError, 1%nat)
              else
                (Z.lor (Z.shiftl (Z.land s0 0x07) 18)
                   (Z.lor (Z.shiftl (Z.land s1 0x3F) 12)
                      (Z.lor (Z.shiftl (Z.land s2 0x3F) 6)
                         (Z.land s3 0x3F))),
                 4%nat)
      end
  end.

Definition RuneStart (b : Z) : bool := negb (Z.land b 0xC0 =? 0x80).

(** The backward scan of [DecodeLastRuneInString]: from [start], step
    down to [lim] until a byte that can start a rune. *)
Fixpoint findStart (n : nat) (s : string) (start : Z) (lim : Z) : Z :=
  match n with
  | O => start
  | S k =>
    if start <? lim then start
    else if RuneStart (Slice.at_ s (Z.to_nat start)) then start
    else findStart k s (start - 1) lim
  end.

Definition DecodeLastRuneInString (s : string) : Z * nat :=
  let end_ := Z.of_nat (String.length s) in
  if end_ =? 0 then (RuneError, 0%nat)
  else
    let r := Slice.at_ s (Z.to_nat (end_ - 1)) in
    if r <? RuneSelf then (r, 1%nat)
    else
      let lim := Z.max (end_ - Z.of_nat UTFMax) 0 in
      let start := Z.max (findStart UTFMax s (end_ - 2) lim) 0 in
      let '(r, size) :=
        DecodeRuneInString (Slice.drop (Z.to_nat start) s) in
      if start + Z.of_nat size =? end_ then (r, size)
      else (RuneError, 1%nat).

End utf8.

(** ** unicode *)

Module unicode.

(** [unicode.IsSpace]: the Latin-1 spaces, and beyond them the
    White_Space property. *)
Definition IsSpace (r : Z) : bool :=
  if r <=? 0xFF then
    ((0x09 <=? r) && (r <=? 0x0D)) || (r =? 0x20) || (r =? 0x85)
    || (r =? 0xA0)
  else
    (r =? 0x1680) || ((0x2000 <=? r) && (r <=? 0x200A))
    || (r =? 0x2028) || (r =? 0x2029) || (r =? 0x202F) || (r =? 0x205F)
    || (r =? 0x3000).

End unicode.

(** ** strings *)

Module strings.

Definition HasPrefix (s prefix : string) : bool :=
  (String.length prefix <=? String.length s)%nat
  && String.eqb (Slice.take (String.length prefix) s) prefix.

Definition HasSuffix (s suffix : string) : bool :=
  (String.length suffix <=? String.length s)%nat
  && String.eqb
       (Slice.drop (String.length s - String.length suffix) s) suffix.

Definition TrimPrefix (s prefix : string) : string :=
  if HasPrefix s prefix then Slice.drop (String.length prefix) s else s.

Definition TrimSuffix (s suffix : string) : string :=
  if HasSuffix s suffix
  then Slice.take (String.length s - String.length suffix) s
  else s.

(** [strings.Contains]: some suffix of [s] starts with [substr]. *)
Fixpoint Contains (s substr : string) : bool :=
  HasPrefix s substr
  || match s with
     | EmptyString => false
     | String _ t => Contains t substr
     end.

(** [strings.Join] *)
Fixpoint Join (elems : list string) (sep : string) : string :=
  match elems with
  | [] => EmptyString
  | [e] => e
  | e :: rest => e +:+ sep +:+ Join rest sep
  end.

(** [indexFunc s f false] followed by the slice [s[i:]], that is
    [TrimLeftFunc]: runes are decoded from the left while [f] holds. *)
Fixpoint trimLeft (fuel : nat) (f : Z → bool) (s : string) : string :=
  match fuel with
  | O => s
  | S k =>
    match s with
    | EmptyString => EmptyString
    | _ =>
      let '(r, n) := utf8.DecodeRuneInString s in
      if f r then trimLeft k f (Slice.drop n s) else s
    end
  end.

Definition TrimLeftFunc (s : string) (f : Z → bool) : string :=
  trimLeft (String.length s) f s.

(** [lastIndexFunc s f false]: the index of the last rune on which [f]
    fails, [-1] if there is none. *)
Fixpoint lastIndexFunc (fuel : nat) (s : string) (f : Z → bool) (i : Z)
  : Z :=
  match fuel with
  | O => -1
  | S k =>
    if i <=? 0 then -1
    else
      let '(r, size) :=
        utf8.DecodeLastRuneInString (Slice.take (Z.to_nat i) s) in
      let i' := i - Z.of_nat size in
      if negb (f r) then i' else lastIndexFunc k s f i'
  end.

Definition TrimRightFunc (s : string) (f : Z → bool) : string :=
  let i :=
    lastIndexFunc (String.length s) s f (Z.of_nat (String.length s)) in
  let i :=
    if (0 <=? i) && (utf8.RuneSelf <=? Slice.at_ s (Z.to_nat i)) then
      i + Z.of_nat (snd (utf8.DecodeRuneInString
                           (Slice.drop (Z.to_nat i) s)))
    else i + 1 in
  Slice.take (Z.to_nat i) s.

Definition TrimFunc (s : string) (f : Z → bool) : string :=
  TrimRightFunc (TrimLeftFunc s f) f.

(** [strings.TrimSpace]: leading and trailing white space, as defined
    by Unicode, removed. *)
Definition TrimSpace (s : string) : string := TrimFunc s unicode.IsSpace.

End strings.

(** ** path/filepath (Unix) *)

Module filepath.

Definition Separator : ascii := "/"%char.

Definition is_sep (c : ascii) : bool := Ascii.eqb c Separator.

(** *** Match *)

(** The leading stars of [scanChunk]. *)
Fixpoint skipStars (star : bool) (pattern : string) : bool * string :=
  match pattern with
  | String c t =>
    if Ascii.eqb c "*" then skipStars true t else (star, pattern)
  | EmptyString => (star, pattern)
  end.

(** The [Scan] loop of [scanChunk]: the chunk up to the next star that is
    not inside brackets, and the rest. *)
Fixpoint scan (inrange : bool) (pattern : string) : string * string :=
  match pattern with
  | EmptyString => (EmptyString, EmptyString)
  | String c t =>
    if Ascii.eqb c "\" then
      match t with
      | EmptyString => (pattern, EmptyString)
      | String d t' =>
        let '(chunk, rest) := scan inrange t' in
        (String c (String d chunk), rest)
      end
    else if Ascii.eqb c "[" then
      let '(chunk, rest) := scan true t in (String c chunk, rest)
    else if Ascii.eqb c "]" then
      let '(chunk, rest) := scan false t in (String c chunk, rest)
    else if Ascii.eqb c "*" && negb inrange then (EmptyString, pattern)
    else
      let '(chunk, rest) := scan inrange t in (String c chunk, rest)
  end.

Definition scanChunk (pattern : string) : bool * string * string :=
  let '(star, pattern) := skipStars false pattern in
  let '(chunk, rest) := scan false pattern in
  (star, chunk, rest).

(** [getEsc]: a possibly escaped character of a character class. *)
Definition getEsc (chunk : string) : error + (Z * string) :=
  match chunk with
  | EmptyString => inl ErrBadPattern
  | String c t =>
    if Ascii.eqb c "-" || Ascii.eqb c "]" then inl ErrBadPattern
    else
      let chunk := if Ascii.eqb c "\" then t else chunk in
      if Slice.is_empty chunk then inl ErrBadPattern
      else
        let '(r, n) := utf8.DecodeRuneInString chunk in
        if (r =? utf8.RuneError) && (n =? 1)%nat then inl ErrBadPattern
        else
          let nchunk := Slice.drop n chunk in
          if Slice.is_empty nchunk then inl ErrBadPattern
          else inr (r, nchunk)
  end.

Definition starts_with (c : ascii) (s : string) : bool :=
  match s with
  | String c0 _ => Ascii.eqb c0 c
  | EmptyString => false
  end.

(** The range loop of a character class [[...]]: the ranges are parsed
    until the closing bracket; [r] is the rune of the name under test. *)
Fixpoint classLoop (fuel : nat) (chunk : string) (r : Z)
         (matched : bool) (nrange : nat) : option (error + (bool * string)) :=
  match fuel with
  | O => None
  | S k =>
    if starts_with "]" chunk && (0 <? nrange)%nat then
      Some (inr (matched, Slice.drop 1 chunk))
    else
      match getEsc chunk with
      | inl e => Some (inl e)
      | inr (lo, chunk) =>
        if starts_with "-" chunk then
          match getEsc (Slice.drop 1 chunk) with
          | inl e => Some (inl e)
          | inr (hi, chunk) =>
            classLoop k chunk r
                      (if (lo <=? r) && (r <=? hi) then true else matched)
                      (S nrange)
          end
        else
          classLoop k chunk r
                    (if (lo <=? r) && (r <=? lo) then true else matched)
                    (S nrange)
      end
  end.

(** The loop of [matchChunk]; [failed] records that the match has failed
    while the rest of the chunk is still checked for well-formedness. *)
Fixpoint matchChunkLoop (fuel : nat) (chunk s : string) (failed : bool)
  : option (string * bool * option error) :=
  match fuel with
  | O => None
  | S k =>
    match chunk with
    | EmptyString =>
      Some (if failed then (EmptyString, false, None) else (s, true, None))
    | String c ctail =>
      let failed := failed || Slice.is_empty s in
      if Ascii.eqb c "[" then
        let '(r, s) :=
          if failed then (0, s)
          else let '(r, n) := utf8.DecodeRuneInString s in
               (r, Slice.drop n s) in
        let negated := starts_with "^" ctail in
        let chunk := if negated then Slice.drop 1 ctail else ctail in
        match classLoop k chunk r false 0 with
        | None => None
        | Some (inl e) => Some (EmptyString, false, Some e)
        | Some (inr (matched, chunk)) =>
          matchChunkLoop k chunk s
                         (failed || Bool.eqb matched negated)
        end
      else if Ascii.eqb c "?" then
        if failed then matchChunkLoop k ctail s failed
        else
          let failed' := starts_with Separator s in
          let '(_, n) := utf8.DecodeRuneInString s in
          matchChunkLoop k ctail (Slice.drop n s) failed'
      else
        let chunk' := if Ascii.eqb c "\" then ctail else chunk in
        match chunk' with
        | EmptyString => Some (EmptyString, false, Some ErrBadPattern)
        | String c1 ctail' =>
          if failed then matchChunkLoop k ctail' s failed
          else
            match s with
            | String c0 stail =>
              matchChunkLoop k ctail' stail (negb (Ascii.eqb c1 c0))
            | EmptyString => matchChunkLoop k ctail' s true
            end
        end
    end
  end.

Definition matchChunk (chunk s : string) : string * bool * option error :=
  match matchChunkLoop (S (String.length chunk)) chunk s false with
  | Some res => res
  | None => (EmptyString, false, Some ErrBadPattern)
  end.

(** The result of the loop that skips bytes of the name under a star. *)
Inductive starResult : Type :=
| StarFound (t : string)
| StarError (e : error)
| StarNone.

(** [for i := 0; i < len(name) && name[i] != Separator; i++]: the chunk is
    tried on [name[i+1:]]; [last] is [len(pattern) == 0]. *)
Fixpoint starLoop (chunk : string) (last : bool) (name : string)
  : starResult :=
  match name with
  | EmptyString => StarNone
  | String c name' =>
    if is_sep c then StarNone
    else
      match matchChunk chunk name' with
      | (t, true, _) =>
        if last && negb (Slice.is_empty t) then starLoop chunk last name'
        else StarFound t
      | (_, false, Some e) => StarError e
      | (_, false, None) => starLoop chunk last name'
      end
  end.

(** After a failed match, the remainder of the pattern is checked to be
    syntactically valid. *)
Fixpoint checkRest (fuel : nat) (pattern : string) : option (option error) :=
  match fuel with
  | O => None
  | S k =>
    match pattern with
    | EmptyString => Some None
    | _ =>
      let '(_, chunk, rest) := scanChunk pattern in
      match matchChunk chunk EmptyString with
      | (_, _, Some e) => Some (Some e)
      | _ => checkRest k rest
      end
    end
  end.

(** The [Pattern] loop of [Match]. *)
Fixpoint MatchLoop (fuel : nat) (pattern name : string)
  : option (bool * option error) :=
  match fuel with
  | O => None
  | S k =>
    match pattern with
    | EmptyString => Some (Slice.is_empty name, None)
    | _ =>
      let '(star, chunk, rest) := scanChunk pattern in
      if star && Slice.is_empty chunk then
        Some (negb (strings.Contains name (String Separator EmptyString)),
              None)
      else
        let '(t, ok, err) := matchChunk chunk name in
        if ok && (Slice.is_empty t || negb (Slice.is_empty rest)) then
          MatchLoop k rest t
        else
          match err with
          | Some e => Some (false, Some e)
          | None =>
            match (if star then starLoop chunk (Slice.is_empty rest) name
                   else StarNone) with
            | StarFound t => MatchLoop k rest t
            | StarError e => Some (false, Some e)
            | StarNone =>
              match checkRest k rest with
              | Some err => Some (false, err)
              | None => None
              end
            end
          end
    end
  end.

(** [filepath.Match pattern name]: the pair [(matched, err)]. *)
Definition Match (pattern name : string) : bool * option error :=
  match MatchLoop (S (String.length pattern)) pattern name with
  | Some res => res
  | None => (false, Some ErrBadPattern)
  end.

(** *** Base, Clean, Dir, Join *)

Fixpoint stripTrailingSep (n : nat) (path : string) : string :=
  match n with
  | O => path
  | S k =>
    if strings.HasSuffix path (String Separator EmptyString)
    then stripTrailingSep k (Slice.take (String.length path - 1) path)
    else path
  end.

(** The text after the last separator of [path] ([path] itself when it
    has none), and the text up to and including that separator. *)
Fixpoint lastElem (path : string) : string :=
  match path with
  | EmptyString => EmptyString
  | String c t =>
    if strings.Contains t (String Separator EmptyString) then lastElem t
    else if is_sep c then t
    else path
  end.

Definition upToLastSep (path : string) : string :=
  Slice.take (String.length path - String.length (lastElem path)) path.

Definition Base (path : string) : string :=
  if Slice.is_empty path then "."
  else
    let path := stripTrailingSep (String.length path) path in
    let path := lastElem path in
    if Slice.is_empty path then String Separator EmptyString else path.

(** The elements of a path between separators, empty ones included. *)
Fixpoint components (path : string) : list string :=
  match path with
  | EmptyString => [EmptyString]
  | String c t =>
    if is_sep c then EmptyString :: components t
    else
      match components t with
      | h :: tl => String c h :: tl
      | [] => [String c EmptyString]
      end
  end.

(** One element processed by the loop of [Clean]; [out] holds the
    elements written so far, last one first. *)
Definition cleanElem (rooted : bool) (out : list string) (e : string)
  : list string :=
  if String.eqb e "" || String.eqb e "." then out
  else if String.eqb e ".." then
    match out with
    | top :: below =>
      if String.eqb top ".."
      then (if rooted then out else e :: out)
      else below
    | [] => if rooted then out else [e]
    end
  else e :: out.

Definition Clean (path : string) : string :=
  if Slice.is_empty path then "."
  else
    let rooted := strings.HasPrefix path (String Separator EmptyString) in
    let out := foldl (cleanElem rooted) [] (components path) in
    let body := strings.Join (rev out) (String Separator EmptyString) in
    if rooted then String Separator body
    else if Slice.is_empty body then "." else body.

Definition Dir (path : string) : string := Clean (upToLastSep path).

(** [filepath.Join]: from the first non-empty element on, the elements
    are joined with separators and cleaned. *)
Fixpoint Join (elem : list string) : string :=
  match elem with
  | [] => EmptyString
  | e :: rest =>
    if Slice.is_empty e then Join rest
    else Clean (strings.Join elem (String Separator EmptyString))
  end.

End filepath.

(** * pkg/types *)

Module types.

(** [type SessionState string] *)
Definition SessionState : Type := string.
Definition SessionCreating : SessionState := "creating".
Definition SessionRunning : SessionState := "running".
Definition SessionPaused : SessionState := "paused".
Definition SessionStopped : SessionState := "stopped".
Definition SessionError : SessionState := "error".

(** Times are kept as milliseconds since the epoch. *)
Definition Time : Type := Z.

Record Session : Type := {
  ID : string;
  ProjectDir : string;
  ContainerID : string;
  State : SessionState;
  AgentName : string;
  WorktreeDir : string;
  CreatedAt : Time;
  UpdatedAt : Time;
}.

(** [type PolicyAction string] *)
Definition PolicyAction : Type := string.
Definition ActionAllow : PolicyAction := "allow".
Definition ActionBlock : PolicyAction := "block".
Definition ActionAudit : PolicyAction := "audit".
Definition ActionPause : PolicyAction := "pause".

Record Rule : Type := {
  Pattern : string;
  Action : PolicyAction;
  Reason : string;
}.

Record RulesConfig : Type := {
  Allow : list Rule;
  Block : list Rule;
}.

Record SandboxConfig : Type := {
  Mount : string;
  Network : bool;
  ReadOnly : list string;
  UseGVisor : bool;
  MemoryLimit : string;
  CPULimit : PrimFloat.float;
}.

Record SecretsConfig : Type := {
  Provider : string;
  Options : gmap string string;
}.

Record AuditConfig : Type := {
  Enabled : bool;
  LogDir : string;
  CloudURL : string;
}.

Record ProjectConfig : Type := {
  Sandbox : SandboxConfig;
  Rules : RulesConfig;
  Secrets : SecretsConfig;
  Audit : AuditConfig;
}.

Record AuditEntry : Type := {
  Timestamp : Time;
  SessionID : string;
  AuditAgentName : string;
  EventType : string;
  Command : string;
  FilePath : string;
  AuditAction : PolicyAction;
  AuditReason : string;
  RulePattern : string;
}.

Record Checkpoint : Type := {
  CheckpointID : string;
  CheckpointSessionID : string;
  ImageID : string;
  Description : string;
  CheckpointCreatedAt : Time;
}.

End types.

(** * internal/config *)

Module config.

Import PrimFloat.

Definition allow (p : string) : types.Rule :=
  {| types.Pattern := p; types.Action := types.ActionAllow;
     types.Reason := "" |}.

Definition block (p reason : string) : types.Rule :=
  {| types.Pattern := p; types.Action := types.ActionBlock;
     types.Reason := reason |}.

Definition DefaultConfig : types.ProjectConfig :=
  {| types.Sandbox :=
       {| types.Mount := ".:/workspace:rw"; types.Network := false;
          types.ReadOnly := []; types.UseGVisor := false;
          types.MemoryLimit := "2g"; types.CPULimit := 2%float |};
     types.Secrets := {| types.Provider := "env"; types.Options := ∅ |};
     types.Audit :=
       {| types.Enabled := true; types.LogDir := ".claudeshield/logs";
          types.CloudURL := "" |};
     types.Rules :=
       {| types.Allow :=
            [ allow "git *"; allow "npm *"; allow "node *";
              allow "python *"; allow "pip *"; allow "go *";
              allow "cargo *"; allow "make *"; allow "cat *";
              allow "ls *"; allow "find *"; allow "grep *" ];
          types.Block :=
            [ block "sudo *" "Privilege escalation not allowed";
              block "rm -rf /" "Root filesystem deletion blocked";
              block "rm -rf /*" "Root filesystem deletion blocked";
              block "chmod 777 *" "Overly permissive permissions blocked";
              block "curl * | sh" "Remote code execution blocked";
              block "curl * | bash" "Remote code execution blocked";
              block "wget * | sh" "Remote code execution blocked";
              block "dd if=*" "Raw disk access blocked";
              block "mkfs.*" "Filesystem formatting blocked";
              block ":(){ :|:& };:" "Fork bomb blocked" ] |} |}.

End config.

(** * internal/policy (src/internal/policy/engine.go) *)

Module policy.

Record Engine : Type := { config : types.ProjectConfig }.

Definition New (cfg : types.ProjectConfig) : Engine := {| config := cfg |}.

(** [Rule] is a pointer into the rule list, [None] when nil. *)
Record Result : Type := {
  Allowed : bool;
  Action : types.PolicyAction;
  Rule : option types.Rule;
  Reason : string;
}.

Definition matchPattern (pattern command : string) : bool :=
  if strings.HasSuffix pattern " *"
     && (let prefix := strings.TrimSuffix pattern " *" in
         String.eqb command prefix
         || strings.HasPrefix command (prefix +:+ " "))
  then true
  else if strings.HasPrefix pattern "*" then
    let suffix := strings.TrimPrefix pattern "*" in
    strings.HasSuffix command suffix
  else if String.eqb command pattern then true
  else fst (filepath.Match pattern command).

(** [for i, rule := range rules { if matchPattern(rule.Pattern, command)
    { return ... &rules[i] ... } }]: the first rule that matches. *)
Definition firstMatch (rules : list types.Rule) (command : string)
  : option types.Rule :=
  List.find (fun rule => matchPattern (types.Pattern rule) command) rules.

Definition EvaluateCommand (e : Engine) (command : string) : Result :=
  let command := strings.TrimSpace command in
  match firstMatch (types.Block (types.Rules (config e))) command with
  | Some rule =>
    {| Allowed := false; Action := types.ActionBlock;
       Rule := Some rule; Reason := types.Reason rule |}
  | None =>
    match firstMatch (types.Allow (types.Rules (config e))) command with
    | Some rule =>
      {| Allowed := true; Action := types.ActionAllow;
         Rule := Some rule; Reason := "" |}
    | None =>
      {| Allowed := false; Action := types.ActionBlock;
         Rule := None; Reason := "Command not in allowlist" |}
    end
  end.

Definition sensitivePatterns : list string :=
  [ "*/.env"; "*/.env.*"; "*/.ssh/*"; "*/.aws/*"; "*/.gnupg/*";
    "*/.docker/config.json"; "*/id_rsa"; "*/id_ed25519";
    "*/.bash_history"; "*/.zsh_history"; "*/.gitconfig"; "*/.npmrc";
    "*/.pypirc" ].

Definition EvaluateFileAccess (e : Engine) (path : string) : Result :=
  if existsb (fun pattern => fst (filepath.Match pattern path))
             sensitivePatterns
  then
    {| Allowed := false; Action := types.ActionBlock; Rule := None;
       Reason := "Access to sensitive file blocked: " +:+ path |}
  else if strings.HasPrefix path "/workspace" then
    {| Allowed := true; Action := types.ActionAllow; Rule := None;
       Reason := "" |}
  else
    {| Allowed := false; Action := types.ActionBlock; Rule := None;
       Reason := "Access outside workspace blocked: " +:+ path |}.

End policy.

(** * The variant of the policy engine in src/unnamed/part_009

    [EvaluateCommand] and [matchPattern] are the same text as in
    engine.go; [EvaluateFileAccess] works on the base name and the parent
    directories instead of glob patterns. *)

Module policy_part_009.

Definition sensitiveFiles : list string :=
  [ ".env"; ".npmrc"; ".pypirc"; ".bash_history"; ".zsh_history";
    ".gitconfig"; "id_rsa"; "id_ed25519" ].

Definition sensitiveParents : list string := [ ".ssh"; ".aws"; ".gnupg" ].

Definition blockedSensitive (path : string) : policy.Result :=
  {| policy.Allowed := false; policy.Action := types.ActionBlock;
     policy.Rule := None;
     policy.Reason := "Access to sensitive file blocked: " +:+ path |}.

Definition EvaluateFileAccess (e : policy.Engine) (path : string)
  : policy.Result :=
  let base := filepath.Base path in
  if existsb (fun name => String.eqb base name) sensitiveFiles
  then blockedSensitive path
  else if strings.HasPrefix base ".env." then blockedSensitive path
  else
    let dir := filepath.Dir path in
    if existsb (fun sd =>
                  String.eqb (filepath.Base dir) sd
                  || strings.Contains path ("/" +:+ sd +:+ "/"))
               sensitiveParents
    then blockedSensitive path
    else if String.eqb base "config.json"
            && strings.Contains path ".docker"
    then blockedSensitive path
    else if strings.HasPrefix path "/workspace" then
      {| policy.Allowed := true; policy.Action := types.ActionAllow;
         policy.Rule := None; policy.Reason := "" |}
    else
      {| policy.Allowed := false; policy.Action := types.ActionBlock;
         policy.Rule := None;
         policy.Reason := "Access outside workspace blocked: " +:+ path |}.

End policy_part_009.

(** * encoding/json, strings

    [json.MarshalIndent] writes a string between quotes, with escapes for
    the quote, the backslash, the control characters, the characters
    [<], [>], [&], U+2028 and U+2029, and with the escape of U+FFFD in
    the place of every byte that does not start a valid UTF-8 encoding
    ([appendString]); a JSON reader undoes the escapes. *)

Module json.

(** U+FFFD in UTF-8. *)
Definition replacement : string :=
  String (ascii_of_nat 239)
         (String (ascii_of_nat 191) (String (ascii_of_nat 189) "")).

(** The loop of [appendString] followed by the reader: what is read back
    from the text written for [src]. *)
Fixpoint readBackLoop (fuel : nat) (src : string) : string :=
  match fuel with
  | O => ""
  | S fuel =>
    match src with
    | EmptyString => ""
    | String b rest =>
      if byte_val b <? utf8.RuneSelf then String b (readBackLoop fuel rest)
      else
        let '(c, size) :=
          utf8.DecodeRuneInString (Slice.take utf8.UTFMax src) in
        if (c =? utf8.RuneError) && Nat.eqb size 1 then
          replacement +:+ readBackLoop fuel rest
        else
          Slice.take size src +:+ readBackLoop fuel (Slice.drop size src)
    end
  end.

Definition readBack (src : string) : string :=
  readBackLoop (String.length src) src.

End json.

(** * The policy artifact (policyFile, policyRule of the sandbox package)

    [generatePolicyMount] copies the pattern of every allow rule and the
    pattern and reason of every block rule and writes the result as JSON;
    the reason carries [omitempty], so an empty reason is absent from the
    JSON text.  A [policyFile] here is the content of the file as a JSON
    reader finds it, an absent reason being the empty string. *)

Module artifact.

Record policyRule : Type := {
  Pattern : string;
  Reason : string;
}.

Record policyFile : Type := {
  Allow : list policyRule;
  Block : list policyRule;
}.

(** The two loops of [generatePolicyMount] that fill [pf], and
    [json.MarshalIndent] of it. *)
Definition fill (cfg : types.ProjectConfig) : policyFile :=
  {| Allow :=
       map (fun r => {| Pattern := json.readBack (types.Pattern r);
                        Reason := "" |})
           (types.Allow (types.Rules cfg));
     Block :=
       map (fun r => {| Pattern := json.readBack (types.Pattern r);
                        Reason := json.readBack (types.Reason r) |})
           (types.Block (types.Rules cfg)) |}.

End artifact.

(** * docker/sandbox/claudeshield-shell.sh

    The policy file is read through [$(jq -r ...)]; an absent file is
    [None].  bash's own pattern matcher, reached by
    [case "$cmd" in $pattern], is a parameter [glob pattern cmd] of the
    model. *)

Module shell.

Definition NUL : ascii := ascii_of_nat 0.
Definition LF : ascii := ascii_of_nat 10.

(** Command substitution drops the NUL bytes of the output ... *)
Fixpoint drop_nul (out : string) : string :=
  match out with
  | EmptyString => ""
  | String c rest =>
    if Ascii.eqb c NUL then drop_nul rest else String c (drop_nul rest)
  end.

(** ... and then the newlines at its end. *)
Fixpoint strip_newlines (out : string) : string :=
  match out with
  | EmptyString => ""
  | String c rest =>
    let rest := strip_newlines rest in
    if Ascii.eqb c LF && Slice.is_empty rest then "" else String c rest
  end.

(** [$(...)] of a command that prints [out]. *)
Definition capture (out : string) : string := strip_newlines (drop_nul out).

(** [$(jq -r FILTER $POLICY_FILE)] for a filter whose result is the
    string [value]: jq prints the string and a newline. *)
Definition jq_r (value : string) : string :=
  capture (value +:+ String LF "").

(** bash's [echo] with one argument: a dash followed by letters among
    [n], [e] and [E] is taken as options and not printed; [n] suppresses
    the final newline. *)
Fixpoint echo_options (opts : string) : bool :=
  match opts with
  | EmptyString => true
  | String c rest =>
    (Ascii.eqb c "n" || Ascii.eqb c "e" || Ascii.eqb c "E")
    && echo_options rest
  end.

Fixpoint has_n (opts : string) : bool :=
  match opts with
  | EmptyString => false
  | String c rest => Ascii.eqb c "n" || has_n rest
  end.

Definition echo (arg : string) : string :=
  match arg with
  | String dash opts =>
    if Ascii.eqb dash "-" && negb (Slice.is_empty opts) && echo_options opts
    then (if has_n opts then "" else String LF "")
    else arg +:+ String LF ""
  | EmptyString => String LF ""
  end.

(** The double quote. *)
Definition DQUOTE : ascii := ascii_of_nat 34.

(** The [sed] command of [log_entry]: a backslash is put before every
    double quote. *)
Fixpoint sed_quote (text : string) : string :=
  match text with
  | EmptyString => ""
  | String c rest =>
    if Ascii.eqb c DQUOTE then String "\" (String c (sed_quote rest))
    else String c (sed_quote rest)
  end.

(** [$(echo ARG | sed ...)], ARG in double quotes. *)
Definition quoted (arg : string) : string := capture (sed_quote (echo arg)).

(** A line appended to the shell audit log by [log_entry], without its
    time stamp: the texts printed for action, command and reason. *)
Record logLine : Type := {
  action : string;
  command : string;
  reason : string;
}.

Definition log_entry (action command reason : string) : logLine :=
  {| action := action; command := quoted command;
     reason := quoted reason |}.

Section Shell.

Variable glob : string → string → bool.

(** [true] is exit status 0. *)
Definition match_pattern (pattern cmd : string) : bool :=
  if strings.HasSuffix pattern " *" then
    let prefix := strings.TrimSuffix pattern " *" in
    if String.eqb cmd prefix || strings.HasPrefix cmd (prefix +:+ " ")
    then true
    else false
  else if strings.HasPrefix pattern "*" then
    let suffix := strings.TrimPrefix pattern "*" in
    if strings.HasSuffix cmd suffix then true else false
  else if String.eqb cmd pattern then true
  else if glob pattern cmd then true
  else false.

(** [pattern=$(jq -r .block[$i].pattern $POLICY_FILE)], and the same for
    the allow rules. *)
Definition pattern_of (r : artifact.policyRule) : string :=
  jq_r (artifact.Pattern r).

(** [reason=$(jq -r FILTER $POLICY_FILE)] with the filter
    [.block[$i].reason // "Blocked by policy"]. *)
Definition block_reason (r : artifact.policyRule) : string :=
  jq_r (if Slice.is_empty (artifact.Reason r) then "Blocked by policy"
        else artifact.Reason r).

(** The [while] loop over the block rules: the reason of the first rule
    that matches. *)
Fixpoint scan_block (rules : list artifact.policyRule) (cmd : string)
  : option string :=
  match rules with
  | [] => None
  | r :: rest =>
    if match_pattern (pattern_of r) cmd then Some (block_reason r)
    else scan_block rest cmd
  end.

(** The [while] loop over the allow rules. *)
Fixpoint scan_allow (rules : list artifact.policyRule) (cmd : string)
  : bool :=
  match rules with
  | [] => false
  | r :: rest =>
    if match_pattern (pattern_of r) cmd then true
    else scan_allow rest cmd
  end.

(** [check_policy]: whether the command is permitted (exit status 0),
    and the lines written to the audit log. *)
Definition check_policy (file : option artifact.policyFile)
           (cmd : string) : bool * list logLine :=
  match file with
  | None => (true, [])
  | Some pf =>
    match scan_block (artifact.Block pf) cmd with
    | Some reason => (false, [ log_entry "block" cmd reason ])
    | None =>
      if scan_allow (artifact.Allow pf) cmd then
        (true, [ log_entry "allow" cmd "" ])
      else
        (false, [ log_entry "block" cmd "Command not in allowlist" ])
    end
  end.

(** What the script does with its arguments. *)
Inductive outcome : Type :=
| Exit (status : Z)
| ExecBash (args : list string).

(** The body of the script: with [-c], the rest of the arguments is
    joined with spaces and checked; otherwise bash is started with the
    arguments unchanged. *)
Definition main (file : option artifact.policyFile) (args : list string)
  : outcome * list logLine :=
  match args with
  | "-c" :: rest =>
    let FULL_CMD := strings.Join rest " " in
    let '(ok, log) := check_policy file FULL_CMD in
    if ok then (ExecBash ["-c"; FULL_CMD], log) else (Exit 126, log)
  | _ => (ExecBash args, [])
  end.

End Shell.

End shell.

(** * The outside world

    The container daemon (the Docker client API), git, the file system and
    the clock are capabilities of a world [W]; every call takes the world
    and returns the next one. *)

Module docker.

(** [container.Config], the fields that are set. *)
Record Config : Type := {
  Image : string;
  WorkingDir : string;
  Tty : bool;
  OpenStdin : bool;
}.

(** [container.ExecOptions], the fields that are set. *)
Record ExecOptions : Type := {
  Cmd : list string;
  AttachStdout : bool;
  AttachStderr : bool;
  ExecWorkingDir : string;
}.

(** An element of the result of [ContainerList]. *)
Record Summary : Type := {
  ID : string;
  Labels : gmap string string;
  State : string;
  Created : Z;
}.

End docker.

Class World (W : Type) : Type := {
  (** [client.ContainerStop id (timeout in seconds)] *)
  ContainerStop : string → Z → W → W * option error;
  ContainerRemove : string → W → W * option error;
  (** [client.ContainerCreate config nil nil nil name]: the new id. *)
  ContainerCreate : docker.Config → string → W → W * (error + string);
  ContainerStart : string → W → W * option error;
  (** [client.ContainerCommit id reference comment pause]: the image id. *)
  ContainerCommit : string → string → string → bool → W → W * (error + string);
  ContainerExecCreate : string → docker.ExecOptions → W → W * (error + string);
  (** [client.ContainerExecAttach], [io.ReadAll] of the attached reader
      and the deferred [Close], on a connection handle. *)
  ContainerExecAttach : string → W → W * (error + nat);
  ReadAll : nat → W → W * (error + string);
  CloseConn : nat → W → W;
  (** [client.ContainerList] with [All: true]. *)
  ContainerList : W → W * (error + list docker.Summary);
  (** [time.Now], in milliseconds. *)
  Now : W → W * types.Time;
  (** [filepath.Abs] reads the working directory. *)
  Abs : string → W → error + string;
  (** [exec.Command(argv...)] run to completion: the combined output and
      the error ([Run] drops the output). *)
  RunCommand : list string → W → W * (string * option error);
  (** [os.RemoveAll] *)
  RemoveAll : string → W → W * option error;
  (** [os.MkdirAll], [json.MarshalIndent] and [os.WriteFile] of the
      checkpoint index at a path (the body of [Manager.save]). *)
  WriteIndex : string → gmap string (list types.Checkpoint) → W
               → W * option error;
  (** The part of [sandbox.Engine.CreateSession] that builds and starts the
      container (absolute project directory, image, mounts, policy
      artifact, hardening, secrets, [ContainerCreate], [ContainerStart]),
      given whether a policy engine is attached: the session id, the
      absolute project directory and the container id. *)
  StartSandbox : option types.ProjectConfig → string → types.SandboxConfig
                 → string → option (gmap string string) → W
                 → W * (error + (string * string * string));
}.

(** A pointer to a [types.Session]. *)
Definition loc : Type := nat.

(** ** The state of the program *)

Record state (W : Type) : Type := mkState {
  world : W;
  (** the [types.Session] objects behind the pointers *)
  heap : gmap loc types.Session;
  (** the entries written by the [audit.Logger] *)
  audit_log : list types.AuditEntry;
  (** [rollback.Manager.checkpoints] *)
  checkpoints : gmap string (list types.Checkpoint);
  (** [orchestrator.Orchestrator.sessions] *)
  agents : gmap string loc;
}.
Arguments mkState {W}.
Arguments world {W}.
Arguments heap {W}.
Arguments audit_log {W}.
Arguments checkpoints {W}.
Arguments agents {W}.

(** ** State passing *)

Module St.
Section St.
Context {W : Type}.

Definition M (A : Type) : Type := state W → state W * A.

Definition ret {A} (a : A) : M A := fun st => (st, a).

Definition bind {A B} (c : M A) (k : A → M B) : M B :=
  fun st => let '(st', a) := c st in k a st'.

(** A call into the outside world. *)
Definition call {A} (f : W → W * A) : M A :=
  fun st =>
    let '(w, a) := f (world st) in
    (mkState w (heap st) (audit_log st) (checkpoints st) (agents st), a).

(** A read of the outside world. *)
Definition ask {A} (f : W → A) : M A := fun st => (st, f (world st)).

Definition get : M (state W) := fun st => (st, st).

(** [*p] *)
Definition load (p : loc) : M (option types.Session) :=
  fun st => (st, heap st !! p).

(** [*p = s] *)
Definition store (p : loc) (s : types.Session) : M unit :=
  fun st =>
    (mkState (world st) (<[p := s]> (heap st)) (audit_log st)
             (checkpoints st) (agents st), tt).

(** [&types.Session{...}]: a new object. *)
Definition alloc (s : types.Session) : M loc :=
  fun st =>
    let p := fresh (dom (heap st)) in
    (mkState (world st) (<[p := s]> (heap st)) (audit_log st)
             (checkpoints st) (agents st), p).

(** [audit.Logger.Log]: the entry is appended to the log. *)
Definition log (entry : types.AuditEntry) : M unit :=
  fun st =>
    (mkState (world st) (heap st) (audit_log st ++ [entry])
             (checkpoints st) (agents st), tt).

Definition set_checkpoints (c : gmap string (list types.Checkpoint))
  : M unit :=
  fun st =>
    (mkState (world st) (heap st) (audit_log st) c (agents st), tt).

Definition set_agents (a : gmap string loc) : M unit :=
  fun st =>
    (mkState (world st) (heap st) (audit_log st) (checkpoints st) a, tt).

End St.
End St.

Notation "'let*' x ':=' c 'in' k" := (St.bind c (fun x => k))
  (at level 10, x name, c at level 100, k at level 200,
   format "'[v' 'let*'  x  ':='  c  'in' '/' k ']'").
Notation "'run' c 'in' k" := (St.bind c (fun _ => k))
  (at level 10, c at level 100, k at level 200,
   format "'[v' 'run'  c  'in' '/' k ']'").

(** [fmt.Sprintf("%d", n)] *)
Definition itoa (n : Z) : string :=
  DecimalString.NilZero.string_of_int (Z.to_int n).

(** * internal/sandbox *)

Module sandbox.

Definition SandboxImage : string := "claudeshield/sandbox:latest".
Definition ContainerLabel : string := "claudeshield.managed".

(** The engine: [auditor] and [policy] are pointers that may be nil; the
    Docker client is the world. *)
Record Engine : Type := {
  auditor : bool;
  policy : option policy.Engine;
}.

Section Sandbox.
Context {W : Type} `{World W}.
Local Abbreviation M := (St.M (W := W)).

Definition CreateSession (e : Engine) (projectDir : string)
           (cfg : types.SandboxConfig) (agentName : string)
           (secrets : option (gmap string string))
  : M (error + loc) :=
  let* r := St.call (StartSandbox (policy.config <$> policy e)
                                  projectDir cfg agentName secrets) in
  match r with
  | inl err => St.ret (inl err)
  | inr (sessionID, projectDir, containerID) =>
    let* created := St.call Now in
    let* updated := St.call Now in
    let* session :=
      St.alloc {| types.ID := sessionID;
                  types.ProjectDir := projectDir;
                  types.ContainerID := containerID;
                  types.State := types.SessionRunning;
                  types.AgentName := agentName;
                  types.WorktreeDir := "";
                  types.CreatedAt := created;
                  types.UpdatedAt := updated |} in
    run (if auditor e then
          let* now := St.call Now in
          St.log {| types.Timestamp := now;
                    types.SessionID := sessionID;
                    types.AuditAgentName := agentName;
                    types.EventType := "session_created";
                    types.Command := ""; types.FilePath := "";
                    types.AuditAction := types.ActionAllow;
                    types.AuditReason := ""; types.RulePattern := "" |}
        else St.ret tt) in
    St.ret (inr session)
  end.

Definition StopSession (e : Engine) (session : loc)
  : M (option error) :=
  let* s0 := St.load session in
  match s0 with
  | None => St.ret (Some (Panic "nil pointer dereference"))
  | Some s =>
    let* err := St.call (ContainerStop (types.ContainerID s) 10) in
    match err with
    | Some err => St.ret (Some (ErrorfW "stopping container: %w" [] err))
    | None =>
      let* err := St.call (ContainerRemove (types.ContainerID s)) in
      match err with
      | Some err =>
        St.ret (Some (ErrorfW "removing container: %w" [] err))
      | None =>
        let* now := St.call Now in
        run St.store session
             {| types.ID := types.ID s;
                types.ProjectDir := types.ProjectDir s;
                types.ContainerID := types.ContainerID s;
                types.State := types.SessionStopped;
                types.AgentName := types.AgentName s;
                types.WorktreeDir := types.WorktreeDir s;
                types.CreatedAt := types.CreatedAt s;
                types.UpdatedAt := now |} in
        run (if auditor e then
              let* now := St.call Now in
              St.log {| types.Timestamp := now;
                        types.SessionID := types.ID s;
                        types.AuditAgentName := types.AgentName s;
                        types.EventType := "session_stopped";
                        types.Command := ""; types.FilePath := "";
                        types.AuditAction := types.ActionAllow;
                        types.AuditReason := "";
                        types.RulePattern := "" |}
            else St.ret tt) in
        St.ret None
      end
    end
  end.

(** The part of [ExecCommand] after the policy check: the command is
    run in the container and its output is read. *)
Definition execInContainer (session : loc) (cmd : list string)
  : M (error + string) :=
  let execCfg :=
    {| docker.Cmd := cmd; docker.AttachStdout := true;
       docker.AttachStderr := true;
       docker.ExecWorkingDir := "/workspace" |} in
  let* s0 := St.load session in
  match s0 with
  | None => St.ret (inl (Panic "nil pointer dereference"))
  | Some s =>
    let* execResp :=
      St.call (ContainerExecCreate (types.ContainerID s) execCfg) in
    match execResp with
    | inl err => St.ret (inl (ErrorfW "creating exec: %w" [] err))
    | inr execID =>
      let* attachResp := St.call (ContainerExecAttach execID) in
      match attachResp with
      | inl err => St.ret (inl (ErrorfW "attaching to exec: %w" [] err))
      | inr conn =>
        let* output := St.call (ReadAll conn) in
        run St.call (fun w => (CloseConn conn w, tt)) in
        match output with
        | inl err =>
          St.ret (inl (ErrorfW "reading exec output: %w" [] err))
        | inr output => St.ret (inr output)
        end
      end
    end
  end.

Definition ExecCommand (e : Engine) (session : loc) (cmd : list string)
  : M (error + string) :=
  let commandStr := strings.Join cmd " " in
  match policy e with
  | Some p =>
    let result := policy.EvaluateCommand p commandStr in
    let* logged :=
      (if auditor e then
         let* now := St.call Now in
         let* s0 := St.load session in
         match s0 with
         | None => St.ret false
         | Some s =>
           run St.log
                {| types.Timestamp := now;
                   types.SessionID := types.ID s;
                   types.AuditAgentName := types.AgentName s;
                   types.EventType := "command_exec";
                   types.Command := commandStr; types.FilePath := "";
                   types.AuditAction := policy.Action result;
                   types.AuditReason := policy.Reason result;
                   types.RulePattern :=
                     match policy.Rule result with
                     | Some rule => types.Pattern rule
                     | None => ""
                     end |} in
           St.ret true
         end
       else St.ret true) in
    if negb logged then St.ret (inl (Panic "nil pointer dereference"))
    else if negb (policy.Allowed result) then
      St.ret (inl (Errorf "policy blocked: %s (reason: %s)"
                          [commandStr; policy.Reason result]))
    else execInContainer session cmd
  | None => execInContainer session cmd
  end.

(** The body of the loop of [ListSessions] for one container. *)
Definition sessionOf (c : docker.Summary) : types.Session :=
  let state :=
    if String.eqb (docker.State c) "exited" then types.SessionStopped
    else if String.eqb (docker.State c) "paused"
         then types.SessionPaused
         else types.SessionRunning in
  let label k := default "" (docker.Labels c !! k) in
  {| types.ID := label "claudeshield.session";
     types.ProjectDir := label "claudeshield.project";
     types.ContainerID := docker.ID c;
     types.State := state;
     types.AgentName := label "claudeshield.agent";
     types.WorktreeDir := "";
     types.CreatedAt := docker.Created c * 1000;
     types.UpdatedAt := 0 |}.

Fixpoint allocSessions (cs : list docker.Summary) : M (list loc) :=
  match cs with
  | [] => St.ret []
  | c :: rest =>
    if String.eqb (default "" (docker.Labels c !! ContainerLabel)) "true"
    then
      let* p := St.alloc (sessionOf c) in
      let* ps := allocSessions rest in
      St.ret (p :: ps)
    else allocSessions rest
  end.

Definition ListSessions (e : Engine) : M (error + list loc) :=
  let* containers := St.call ContainerList in
  match containers with
  | inl err => St.ret (inl (ErrorfW "listing containers: %w" [] err))
  | inr containers =>
    let* sessions := allocSessions containers in
    St.ret (inr sessions)
  end.

End Sandbox.

End sandbox.

(** * internal/rollback *)

Module rollback.

(** The manager: its [checkpoints] map is part of the program state;
    [storagePath] is empty when the checkpoints are kept in memory only
    (the variant in src/unnamed/part_006 has no storage at all, and the
    same [Rollback] and [RollbackToLatest]). *)
Record Manager : Type := { storagePath : string }.

Section Rollback.
Context {W : Type} `{World W}.
Local Abbreviation M := (St.M (W := W)).

Definition save (m : Manager) : M (option error) :=
  if Slice.is_empty (storagePath m) then St.ret None
  else
    let* st := St.get in
    St.call (WriteIndex (storagePath m) (checkpoints st)).

Definition CreateCheckpoint (m : Manager) (session : loc)
           (description : string) : M (error + types.Checkpoint) :=
  let* now := St.call Now in
  let cpID := "cs-cp-" +:+ itoa now in
  let* s0 := St.load session in
  match s0 with
  | None => St.ret (inl (Panic "nil pointer dereference"))
  | Some s =>
    let* commitResp :=
      St.call (ContainerCommit (types.ContainerID s)
                               ("claudeshield/checkpoint:" +:+ cpID)
                               description true) in
    match commitResp with
    | inl err => St.ret (inl (ErrorfW "creating checkpoint: %w" [] err))
    | inr imageID =>
      let* created := St.call Now in
      let cp :=
        {| types.CheckpointID := cpID;
           types.CheckpointSessionID := types.ID s;
           types.ImageID := imageID;
           types.Description := description;
           types.CheckpointCreatedAt := created |} in
      let* st := St.get in
      run St.set_checkpoints
            (<[types.ID s :=
                 default [] (checkpoints st !! types.ID s) ++ [cp]]>
               (checkpoints st)) in
      run save m in
      St.ret (inr cp)
    end
  end.

(** [for i, cp := range checkpoints { if cp.ID == checkpointID {
    target = &checkpoints[i]; break } }] *)
Definition findTarget (checkpoints : list types.Checkpoint)
           (checkpointID : string) : option types.Checkpoint :=
  List.find (fun cp => String.eqb (types.CheckpointID cp) checkpointID)
            checkpoints.

(** The part of [Rollback] after the target has been found: the current
    container is stopped and removed (errors dropped), a container is
    created from the image of the target and started, and the session
    is updated in place. *)
Definition restore (session : loc) (s : types.Session)
           (target : types.Checkpoint) : M (option error) :=
  run St.call (ContainerStop (types.ContainerID s) 5) in
  run St.call (ContainerRemove (types.ContainerID s)) in
  let* resp :=
    St.call (ContainerCreate
               {| docker.Image := types.ImageID target;
                  docker.WorkingDir := "/workspace";
                  docker.Tty := true;
                  docker.OpenStdin := true |}
               (types.ID s)) in
  match resp with
  | inl err =>
    St.ret (Some (ErrorfW "creating container from checkpoint: %w"
                          [] err))
  | inr respID =>
    let* err := St.call (ContainerStart respID) in
    match err with
    | Some err =>
      St.ret (Some (ErrorfW "starting restored container: %w" [] err))
    | None =>
      let* now := St.call Now in
      run St.store session
            {| types.ID := types.ID s;
               types.ProjectDir := types.ProjectDir s;
               types.ContainerID := respID;
               types.State := types.State s;
               types.AgentName := types.AgentName s;
               types.WorktreeDir := types.WorktreeDir s;
               types.CreatedAt := types.CreatedAt s;
               types.UpdatedAt := now |} in
      St.ret None
    end
  end.

Definition Rollback (m : Manager) (session : loc) (checkpointID : string)
  : M (option error) :=
  let* s0 := St.load session in
  match s0 with
  | None => St.ret (Some (Panic "nil pointer dereference"))
  | Some s =>
    let* st := St.get in
    match checkpoints st !! types.ID s with
    | None =>
      St.ret (Some (Errorf "no checkpoints for session %s" [types.ID s]))
    | Some cps =>
      match findTarget cps checkpointID with
      | None =>
        St.ret (Some (Errorf "checkpoint %s not found" [checkpointID]))
      | Some target => restore session s target
      end
    end
  end.

Definition ListCheckpoints (m : Manager) (sessionID : string)
  : M (list types.Checkpoint) :=
  let* st := St.get in
  St.ret (default [] (checkpoints st !! sessionID)).

Definition RollbackToLatest (m : Manager) (session : loc)
  : M (option error) :=
  let* s0 := St.load session in
  match s0 with
  | None => St.ret (Some (Panic "nil pointer dereference"))
  | Some s =>
    let* st := St.get in
    match checkpoints st !! types.ID s with
    | None =>
      St.ret (Some (Errorf "no checkpoints for session %s" [types.ID s]))
    | Some cps =>
      match last cps with
      | None =>
        St.ret (Some (Errorf "no checkpoints for session %s"
                             [types.ID s]))
      | Some latest => Rollback m session (types.CheckpointID latest)
      end
    end
  end.

End Rollback.

End rollback.

(** * internal/orchestrator *)

Module orchestrator.

(** The orchestrator: its [sessions] map is part of the program state
    ([agents]); the lock is not modelled (one caller at a time). *)
Record Orchestrator : Type := { engine : sandbox.Engine }.

Section Orchestrator.
Context {W : Type} `{World W}.
Local Abbreviation M := (St.M (W := W)).

Definition createWorktree (projectDir agentName : string)
  : M (error + string) :=
  let branchName := "claudeshield/" +:+ agentName in
  let worktreeDir :=
    filepath.Join [projectDir; ".claudeshield"; "worktrees"; agentName] in
  run St.call (RunCommand ["git"; "-C"; projectDir; "worktree"; "prune"])
  in
  run St.call (RemoveAll worktreeDir) in
  run St.call (RunCommand ["git"; "-C"; projectDir; "branch"; "-D";
                           branchName]) in
  run St.call (RunCommand ["git"; "-C"; projectDir; "branch";
                           branchName]) in
  let* res :=
    St.call (RunCommand ["git"; "-C"; projectDir; "worktree"; "add";
                         worktreeDir; branchName]) in
  match res with
  | (out, Some err) =>
    St.ret (inl (ErrorfW "git worktree add: %s: %w" [out] err))
  | (_, None) => St.ret (inr worktreeDir)
  end.

Definition removeWorktree (projectDir worktreeDir : string)
  : M (option error) :=
  let* res :=
    St.call (RunCommand ["git"; "-C"; projectDir; "worktree"; "remove";
                         "--force"; worktreeDir]) in
  match res with
  | (out, Some err) =>
    St.ret (Some (ErrorfW "git worktree remove: %s: %w" [out] err))
  | (_, None) => St.ret None
  end.

Definition mergeWorktree (projectDir agentName : string)
  : M (option error) :=
  let branchName := "claudeshield/" +:+ agentName in
  let worktreeDir :=
    filepath.Join [projectDir; ".claudeshield"; "worktrees"; agentName] in
  run St.call (RunCommand ["git"; "-C"; worktreeDir; "add"; "-A"]) in
  run St.call (RunCommand ["git"; "-C"; worktreeDir; "commit"; "-m";
                           "ClaudeShield: agent " +:+ agentName
                           +:+ " changes"]) in
  let* res :=
    St.call (RunCommand ["git"; "-C"; projectDir; "merge"; "--no-ff";
                         "-m"; "Merge agent " +:+ agentName;
                         branchName]) in
  match res with
  | (out, Some err) =>
    St.ret (Some (ErrorfW
                    "merge failed (resolve conflicts manually): %s: %w"
                    [out] err))
  | (_, None) =>
    run St.call (RunCommand ["git"; "-C"; projectDir; "branch"; "-d";
                             branchName]) in
    St.ret None
  end.

Definition setWorktreeDir (s : types.Session) (dir : string)
  : types.Session :=
  {| types.ID := types.ID s;
     types.ProjectDir := types.ProjectDir s;
     types.ContainerID := types.ContainerID s;
     types.State := types.State s;
     types.AgentName := types.AgentName s;
     types.WorktreeDir := dir;
     types.CreatedAt := types.CreatedAt s;
     types.UpdatedAt := types.UpdatedAt s |}.

Definition SpawnAgent (o : Orchestrator) (projectDir agentName : string)
           (cfg : types.SandboxConfig) : M (error + loc) :=
  let* st := St.get in
  match agents st !! agentName with
  | Some _ =>
    St.ret (inl (Errorf "agent %q already exists" [agentName]))
  | None =>
    let* absProjectDir := St.ask (Abs projectDir) in
    match absProjectDir with
    | inl err =>
      St.ret (inl (ErrorfW "resolving project dir: %w" [] err))
    | inr projectDir =>
      let* wt := createWorktree projectDir agentName in
      match wt with
      | inl err =>
        St.ret (inl (ErrorfW "creating worktree for %s: %w"
                             [agentName] err))
      | inr worktreeDir =>
        let* created :=
          sandbox.CreateSession (engine o) worktreeDir cfg agentName
                                None in
        match created with
        | inl err =>
          run removeWorktree projectDir worktreeDir in
          St.ret (inl (ErrorfW "creating sandbox for %s: %w"
                               [agentName] err))
        | inr session =>
          let* s0 := St.load session in
          match s0 with
          | None => St.ret (inl (Panic "nil pointer dereference"))
          | Some s =>
            run St.store session (setWorktreeDir s worktreeDir) in
            let* st := St.get in
            run St.set_agents (<[agentName := session]> (agents st)) in
            St.ret (inr session)
          end
        end
      end
    end
  end.

(** [for _, s := range sessions { if s.AgentName == agentName { ... break
    } }] over the pointers returned by [ListSessions]. *)
Definition findAgent (hp : gmap loc types.Session) (sessions : list loc)
           (agentName : string) : option loc :=
  List.find (fun p =>
               match hp !! p with
               | Some s => String.eqb (types.AgentName s) agentName
               | None => false
               end) sessions.

(** The part of [StopAgent] after the session has been resolved. *)
Definition stopResolved (o : Orchestrator) (agentName : string)
           (merge : bool) (session : loc) : M (option error) :=
  let* err := sandbox.StopSession (engine o) session in
  match err with
  | Some err => St.ret (Some (ErrorfW "stopping sandbox: %w" [] err))
  | None =>
    let* s0 := St.load session in
    match s0 with
    | None => St.ret (Some (Panic "nil pointer dereference"))
    | Some s =>
      let* err :=
        (if merge && negb (Slice.is_empty (types.WorktreeDir s)) then
           mergeWorktree (types.ProjectDir s) agentName
         else St.ret None) in
      match err with
      | Some err => St.ret (Some (ErrorfW "merging worktree: %w" [] err))
      | None =>
        run (if negb (Slice.is_empty (types.WorktreeDir s)) then
               removeWorktree (types.ProjectDir s) (types.WorktreeDir s)
             else St.ret None) in
        let* st := St.get in
        run St.set_agents (delete agentName (agents st)) in
        St.ret None
      end
    end
  end.

Definition StopAgent (o : Orchestrator) (agentName : string)
           (merge : bool) : M (option error) :=
  let* st := St.get in
  match agents st !! agentName with
  | Some session => stopResolved o agentName merge session
  | None =>
    let* sessions := sandbox.ListSessions (engine o) in
    match sessions with
    | inl err => St.ret (Some (ErrorfW "listing sessions: %w" [] err))
    | inr sessions =>
      let* st := St.get in
      match findAgent (heap st) sessions agentName with
      | None => St.ret (Some (Errorf "agent %q not found" [agentName]))
      | Some session => stopResolved o agentName merge session
      end
    end
  end.

Definition ListAgents (o : Orchestrator) : M (gmap string loc) :=
  let* st := St.get in
  St.ret (agents st).

End Orchestrator.

End orchestrator.

(** * A small world

    A daemon in which every call succeeds: containers, images and exec
    sessions are numbered from a counter, the clock ticks at every
    reading, and the calls are recorded. *)

Module toy.

Record daemon : Type := {
  counter : Z;
  calls : list string;
}.

Definition tick (name : string) (w : daemon) : daemon :=
  {| counter := counter w + 1; calls := calls w ++ [name] |}.

Definition init : daemon := {| counter := 1; calls := [] |}.

#[global] Instance toy_world : World daemon := {
  ContainerStop := fun id _ w => (tick ("stop " +:+ id) w, None);
  ContainerRemove := fun id w => (tick ("remove " +:+ id) w, None);
  ContainerCreate := fun cfg name w =>
    (tick ("create " +:+ docker.Image cfg) w,
     inr ("container-" +:+ itoa (counter w)));
  ContainerStart := fun id w => (tick ("start " +:+ id) w, None);
  ContainerCommit := fun id ref _ _ w =>
    (tick ("commit " +:+ id) w, inr ("image-" +:+ itoa (counter w)));
  ContainerExecCreate := fun id opts w =>
    (tick ("exec " +:+ id +:+ ": "
           +:+ strings.Join (docker.Cmd opts) " ") w,
     inr ("exec-" +:+ itoa (counter w)));
  ContainerExecAttach := fun id w =>
    (tick ("attach " +:+ id) w, inr (Z.to_nat (counter w)));
  ReadAll := fun conn w => (tick "read" w, inr "ok");
  CloseConn := fun conn w => tick "close" w;
  ContainerList := fun w => (tick "list" w, inr []);
  Now := fun w => (tick "now" w, counter w);
  Abs := fun path w => inr path;
  RunCommand := fun argv w => (tick (strings.Join argv " ") w, ("", None));
  RemoveAll := fun path w => (tick ("rm -r " +:+ path) w, None);
  WriteIndex := fun path idx w => (tick ("write " +:+ path) w, None);
  StartSandbox := fun policy projectDir cfg agentName secrets w =>
    (tick ("sandbox " +:+ agentName) w,
     inr ("cs-" +:+ agentName +:+ "-" +:+ itoa (counter w), projectDir,
          "container-" +:+ itoa (counter w)));
}.

Definition session1 : types.Session :=
  {| types.ID := "cs-x-1"; types.ProjectDir := "/proj";
     types.ContainerID := "container-0";
     types.State := types.SessionRunning; types.AgentName := "x";
     types.WorktreeDir := ""; types.CreatedAt := 0;
     types.UpdatedAt := 0 |}.

Definition checkpoint (id image : string) : types.Checkpoint :=
  {| types.CheckpointID := id; types.CheckpointSessionID := "cs-x-1";
     types.ImageID := image; types.Description := "";
     types.CheckpointCreatedAt := 0 |}.

Definition c1 : types.Checkpoint := checkpoint "cs-cp-1" "image-1".
Definition c2 : types.Checkpoint := checkpoint "cs-cp-2" "image-2".
Definition c3 : types.Checkpoint := checkpoint "cs-cp-3" "image-3".

(** One session on the heap at address 0, with three checkpoints, and
    the agent [x] bound to it. *)
Definition st1 : state daemon :=
  mkState init {[ 0%nat := session1 ]} []
          {[ "cs-x-1" := [c1; c2; c3] ]} {[ "x" := 0%nat ]}.

Definition manager : rollback.Manager := {| rollback.storagePath := "" |}.

Definition engine_without_policy : sandbox.Engine :=
  {| sandbox.auditor := true; sandbox.policy := None |}.

Definition orch : orchestrator.Orchestrator :=
  {| orchestrator.engine := engine_without_policy |}.

End toy.

(** * The audit command (cmd package, src/unnamed/part_002) *)

Module cmd.

(** [truncate]: the slice [s[:maxLen-3]] panics when its bound is
    negative. *)
Definition truncate (s : string) (maxLen : Z) : error + string :=
  if Z.of_nat (String.length s) <=? maxLen then inr s
  else if maxLen - 3 <? 0 then inl (Panic "slice bounds out of range")
  else inr (Slice.take (Z.to_nat (maxLen - 3)) s +:+ "...").

(** The [--last] filter of the audit command:
    [if last > 0 && last < len(entries) { entries = entries[len(entries)-last:] }]. *)
Definition lastEntries {A : Type} (last : Z) (entries : list A) : list A :=
  if (0 <? last) && (last <? Z.of_nat (length entries))
  then drop (Z.to_nat (Z.of_nat (length entries) - last)) entries
  else entries.

End cmd.

(** * internal/secrets (src/internal/secrets/env.go) *)

Module secrets.

Section EnvProvider.

(** [os.Getenv]: the value of a variable, empty when it is not set. *)
Variable Getenv : string → string.

(** The loop of [EnvProvider.Load] over the keys. *)
Fixpoint loadLoop (keys : list string) (result : gmap string string)
         (missing : list string) : gmap string string * list string :=
  match keys with
  | [] => (result, missing)
  | key :: rest =>
    let val := Getenv key in
    if String.eqb val "" then loadLoop rest result (missing ++ [key])
    else loadLoop rest (<[key := val]> result) missing
  end.

Definition Load (keys : list string) : gmap string string * option error :=
  let '(result, missing) := loadLoop keys ∅ [] in
  if (0 <? length missing)%nat then
    (result,
     Some (Errorf "environment variables not set: %s"
                  [strings.Join missing ", "]))
  else (result, None).

End EnvProvider.

End secrets.

(** * The mounts of a sandbox container (buildMounts of the sandbox
      package, src/unnamed/part_009) *)

Module mount.

Definition TypeBind : string := "bind".

Record Mount : Type := {
  Type_ : string;
  Source : string;
  Target : string;
  ReadOnly : bool;
}.

End mount.

Module sandbox_mounts.

Definition buildMounts (projectDir : string) (cfg : types.SandboxConfig)
  : list mount.Mount * option error :=
  ({| mount.Type_ := mount.TypeBind; mount.Source := projectDir;
      mount.Target := "/workspace"; mount.ReadOnly := false |}
     :: map (fun ro => {| mount.Type_ := mount.TypeBind; mount.Source := ro;
                          mount.Target := ro; mount.ReadOnly := true |})
            (types.ReadOnly cfg),
   None).

End sandbox_mounts.

(** * Vocabulary of the statements *)

Module spec.

(** The characters that [filepath.Match] does not take literally. *)
Definition meta (c : ascii) : bool :=
  Ascii.eqb c "*" || Ascii.eqb c "?" || Ascii.eqb c "[" || Ascii.eqb c "\".

(** A string without such a character. *)
Fixpoint plain (s : string) : bool :=
  match s with
  | EmptyString => true
  | String c t => negb (meta c) && plain t
  end.

(** The sensitive base names and directories. *)
Definition sensitive_names : list string :=
  [ ".env"; ".npmrc"; ".pypirc"; ".bash_history"; ".zsh_history";
    "id_rsa"; "id_ed25519"; ".gitconfig" ].

Definition sensitive_dirs : list string := [ ".ssh"; ".aws"; ".gnupg" ].

(** [path] lies under a directory named [d]: it starts with [d/] or
    holds [/d/]. *)
Definition under (d path : string) : bool :=
  strings.HasPrefix path (d +:+ "/")
  || strings.Contains path ("/" +:+ d +:+ "/").

(** A path that must be blocked wherever it is: a sensitive base name, a
    base name that starts with [.env.], or a place under a sensitive
    directory. *)
Definition sensitive (path : string) : bool :=
  existsb (String.eqb (filepath.Base path)) sensitive_names
  || strings.HasPrefix (filepath.Base path) ".env."
  || existsb (fun d => under d path) sensitive_dirs.

(** No rule of the list matches the command. *)
Definition unmatched (rules : list types.Rule) (command : string) : Prop :=
  Forall (fun r => policy.matchPattern (types.Pattern r) command = false)
         rules.

(** A rule whose pattern is a plain prefix followed by space-star. *)
Definition space_star (r : types.Rule) : Prop :=
  ∃ prefix, types.Pattern r = prefix +:+ " *" ∧ plain prefix = true.

End spec.

(** Running a command in a container, as the daemon sees it: the exec
    session is created in the workspace directory with both output
    streams attached, attached to, read to the end and closed. *)
Definition container_exec {W : Type} `{World W} (containerID : string)
           (cmd : list string) (w : W) : W * (error + string) :=
  let '(w, created) :=
    ContainerExecCreate containerID
      {| docker.Cmd := cmd; docker.AttachStdout := true;
         docker.AttachStderr := true;
         docker.ExecWorkingDir := "/workspace" |} w in
  match created with
  | inl err => (w, inl (ErrorfW "creating exec: %w" [] err))
  | inr execID =>
    let '(w, attached) := ContainerExecAttach execID w in
    match attached with
    | inl err => (w, inl (ErrorfW "attaching to exec: %w" [] err))
    | inr conn =>
      let '(w, output) := ReadAll conn w in
      (CloseConn conn w,
       match output with
       | inl err => inl (ErrorfW "reading exec output: %w" [] err)
       | inr output => inr output
       end)
    end
  end.

(** The state with another world. *)
Definition with_world {W : Type} (st : state W) (w : W) : state W :=
  mkState w (heap st) (audit_log st) (checkpoints st) (agents st).

(** The session after a rollback: a new container, a new time stamp. *)
Definition restored (s : types.Session) (containerID : string)
           (now : types.Time) : types.Session :=
  {| types.ID := types.ID s;
     types.ProjectDir := types.ProjectDir s;
     types.ContainerID := containerID;
     types.State := types.State s;
     types.AgentName := types.AgentName s;
     types.WorktreeDir := types.WorktreeDir s;
     types.CreatedAt := types.CreatedAt s;
     types.UpdatedAt := now |}.

(** A computation that leaves the map of the orchestrator alone. *)
Definition keeps_agents {W A : Type} (c : St.M (W := W) A) : Prop :=
  ∀ st, agents (fst (c st)) = agents st.

(** More vocabulary. *)

Module props.

(** The ASCII white space characters: tab, line feed, vertical tab, form
    feed, carriage return and space. *)
Definition ascii_space (c : ascii) : bool :=
  let b := byte_val c in ((0x09 <=? b) && (b <=? 0x0D)) || (b =? 0x20).

(** A string of such characters. *)
Fixpoint blank (s : string) : bool :=
  match s with
  | EmptyString => true
  | String c t => ascii_space c && blank t
  end.

(** No pattern of the list matches the command, for the shell. *)
Definition shell_unmatched (glob : string → string → bool)
           (rules : list artifact.policyRule) (cmd : string) : Prop :=
  Forall (fun r => shell.match_pattern glob (shell.pattern_of r) cmd = false)
         rules.

(** A string of ASCII characters other than NUL. *)
Fixpoint ascii_text (s : string) : bool :=
  match s with
  | EmptyString => true
  | String c t =>
    (0 <? byte_val c) && (byte_val c <? utf8.RuneSelf) && ascii_text t
  end.


(** A container that carries the management label. *)
Definition managed (c : docker.Summary) : bool :=
  String.eqb (default "" (docker.Labels c !! sandbox.ContainerLabel)) "true".


End props.

(** More of the small world. *)

Module scene.

(** An engine with the default policy and an auditor. *)
Definition engine_with_policy : sandbox.Engine :=
  {| sandbox.auditor := true;
     sandbox.policy := Some (policy.New config.DefaultConfig) |}.

(** The state [toy.st1] at a later time. *)
Definition st_late : state toy.daemon :=
  with_world toy.st1 {| toy.counter := 7; toy.calls := [] |}.

(** The state [toy.st1] before any agent is known. *)
Definition st_empty : state toy.daemon :=
  mkState toy.init ∅ [] ∅ ∅.

(** The session of [toy.st1] with a list of checkpoints, as read from the
    index file, in which the last id is also the first. *)
Definition st_same_id : state toy.daemon :=
  mkState toy.init {[ 0%nat := toy.session1 ]} []
          {[ "cs-x-1" := [toy.c1; toy.c2; toy.checkpoint "cs-cp-1" "image-3"] ]}
          ∅.

(** An environment with one variable. *)
Definition env (key : string) : string :=
  if String.eqb key "API_KEY" then "secret" else "".

End scene.

(** A daemon that answers as the small one does, on a machine whose wall
    clock shows the same millisecond at every reading ([UnixMilli] is wall
    time: a coarse clock, or one that is set back between the readings). *)

Module stalled.

Record daemon : Type := { inner : toy.daemon }.

Definition lift {A : Type} (f : toy.daemon → toy.daemon * A) (w : daemon)
  : daemon * A :=
  let '(v, a) := f (inner w) in ({| inner := v |}, a).

Definition millisecond : types.Time := 1700000000000.

#[global] Instance stalled_world : World daemon := {
  ContainerStop := fun id timeout => lift (ContainerStop id timeout);
  ContainerRemove := fun id => lift (ContainerRemove id);
  ContainerCreate := fun cfg name => lift (ContainerCreate cfg name);
  ContainerStart := fun id => lift (ContainerStart id);
  ContainerCommit := fun id ref comment pause =>
    lift (ContainerCommit id ref comment pause);
  ContainerExecCreate := fun id opts => lift (ContainerExecCreate id opts);
  ContainerExecAttach := fun id => lift (ContainerExecAttach id);
  ReadAll := fun conn => lift (ReadAll conn);
  CloseConn := fun conn w => {| inner := CloseConn conn (inner w) |};
  ContainerList := lift ContainerList;
  Now := fun w => ({| inner := toy.tick "now" (inner w) |}, millisecond);
  Abs := fun path w => Abs path (inner w);
  RunCommand := fun argv => lift (RunCommand argv);
  RemoveAll := fun path => lift (RemoveAll path);
  WriteIndex := fun path idx => lift (WriteIndex path idx);
  StartSandbox := fun policy projectDir cfg agentName secrets =>
    lift (StartSandbox policy projectDir cfg agentName secrets);
}.

(** One session at address 0, no checkpoint yet. *)
Definition st0 : state daemon :=
  mkState {| inner := toy.init |} {[ 0%nat := toy.session1 ]} [] ∅ ∅.

End stalled.

(** * Properties *)

(** ** Strings *)

Section StringFacts.

Implicit Types s t p : string.

Lemma append_nil t : "" +:+ t = t.
Proof. reflexivity. Qed.

Lemma append_cons c s t : String c s +:+ t = String c (s +:+ t).
Proof. reflexivity. Qed.

Lemma length_append s t :
  String.length (s +:+ t) = (String.length s + String.length t)%nat.
Proof.
  induction s as [|c s IH]; [reflexivity |].
  rewrite append_cons. simpl. now rewrite IH.
Qed.

Lemma append_empty_r s : s +:+ "" = s.
Proof.
  induction s as [|c s IH]; [reflexivity |].
  now rewrite append_cons, IH.
Qed.

Lemma append_assoc s t p : (s +:+ t) +:+ p = s +:+ (t +:+ p).
Proof.
  induction s as [|c s IH]; [reflexivity |].
  now rewrite !append_cons, IH.
Qed.


Lemma take_append s t : Slice.take (String.length s) (s +:+ t) = s.
Proof.
  induction s as [|c s IH]; [now destruct t |].
  rewrite append_cons. simpl. now rewrite IH.
Qed.

Lemma drop_append s t : Slice.drop (String.length s) (s +:+ t) = t.
Proof.
  induction s as [|c s IH]; [reflexivity |].
  rewrite append_cons. simpl. exact IH.
Qed.

Lemma take_drop n s : Slice.take n s +:+ Slice.drop n s = s.
Proof.
  revert s; induction n as [|n IH]; intros [|c s]; simpl; try reflexivity.
  now rewrite append_cons, IH.
Qed.

Lemma length_drop n s :
  String.length (Slice.drop n s) = (String.length s - n)%nat.
Proof.
  revert s; induction n as [|n IH]; intros [|c s]; simpl;
    try reflexivity; apply IH.
Qed.

Lemma HasPrefix_append s t : strings.HasPrefix (s +:+ t) s = true.
Proof.
  unfold strings.HasPrefix. rewrite take_append, String.eqb_refl.
  rewrite length_append, andb_true_r. apply Nat.leb_le. lia.
Qed.

Lemma HasPrefix_inv s p :
  strings.HasPrefix s p = true → ∃ t, s = p +:+ t.
Proof.
  unfold strings.HasPrefix. intros [_ Heq%String.eqb_eq]%andb_prop.
  exists (Slice.drop (String.length p) s).
  rewrite <- Heq at 1. symmetry. apply take_drop.
Qed.

Lemma HasSuffix_append s t : strings.HasSuffix (s +:+ t) t = true.
Proof.
  unfold strings.HasSuffix. rewrite length_append.
  replace (String.length s + String.length t - String.length t)%nat
    with (String.length s) by lia.
  rewrite drop_append, String.eqb_refl, andb_true_r.
  apply Nat.leb_le. lia.
Qed.

Lemma TrimSuffix_append s t : strings.TrimSuffix (s +:+ t) t = s.
Proof.
  unfold strings.TrimSuffix. rewrite HasSuffix_append, length_append.
  replace (String.length s + String.length t - String.length t)%nat
    with (String.length s) by lia.
  apply take_append.
Qed.

Lemma eqb_append_self s t : t ≠ "" → String.eqb (s +:+ t) s = false.
Proof.
  intros Hne. apply String.eqb_neq. intros Heq.
  apply (f_equal String.length) in Heq. rewrite length_append in Heq.
  destruct t; [congruence | simpl in Heq; lia].
Qed.

End StringFacts.

(** ** filepath.Match returns: the fuel of its loops is never used up *)

Section MatchTotal.

Lemma DecodeRune_width s :
  s ≠ "" → (1 <= snd (utf8.DecodeRuneInString s))%nat.
Proof.
  intros Hne. unfold utf8.DecodeRuneInString.
  destruct s as [|c0 s]; [congruence |].
  repeat case_match; simpl; lia.
Qed.

Lemma is_empty_false s : Slice.is_empty s = false → s ≠ "".
Proof. now destruct s. Qed.

Lemma getEsc_shorter chunk r rest :
  filepath.getEsc chunk = inr (r, rest) →
  (String.length rest < String.length chunk)%nat.
Proof.
  unfold filepath.getEsc. destruct chunk as [|c t]; [discriminate |].
  destruct (Ascii.eqb c "-" || Ascii.eqb c "]"); [discriminate |].
  set (chunk := if Ascii.eqb c "\" then t else String c t).
  assert (Hle : (String.length chunk <= String.length (String c t))%nat)
    by (subst chunk; destruct (Ascii.eqb c "\"); simpl; lia).
  destruct (Slice.is_empty chunk) eqn:He; [discriminate |].
  apply is_empty_false, DecodeRune_width in He.
  destruct (utf8.DecodeRuneInString chunk) as [r0 n]; simpl in He.
  destruct ((r0 =? utf8.RuneError) && (n =? 1)%nat); [discriminate |].
  destruct (Slice.is_empty (Slice.drop n chunk)) eqn:Hd; [discriminate |].
  intros [= <- <-]. apply is_empty_false in Hd.
  assert (String.length (Slice.drop n chunk) ≠ 0%nat)
    by (destruct (Slice.drop n chunk); simpl; congruence).
  rewrite length_drop in *. lia.
Qed.

Lemma length_drop1 s :
  (String.length (Slice.drop 1 s) <= String.length s)%nat.
Proof. rewrite length_drop. lia. Qed.

Lemma classLoop_total fuel : ∀ chunk r matched nrange,
  (String.length chunk < fuel)%nat →
  ∃ res, filepath.classLoop fuel chunk r matched nrange = Some res
         ∧ ∀ b rest, res = inr (b, rest) →
                     (String.length rest <= String.length chunk)%nat.
Proof.
  induction fuel as [|k IH]; intros chunk r matched nrange Hlt; [lia |].
  cbn [filepath.classLoop].
  destruct (filepath.starts_with "]" chunk && (0 <? nrange)%nat).
  { eexists; split; [reflexivity |]. intros b rest [= <- <-].
    apply length_drop1. }
  destruct (filepath.getEsc chunk) as [e | [lo chunk1]] eqn:H1.
  { eexists; split; [reflexivity | discriminate]. }
  apply getEsc_shorter in H1.
  destruct (filepath.starts_with "-" chunk1).
  - destruct (filepath.getEsc (Slice.drop 1 chunk1))
      as [e | [hi chunk2]] eqn:H2.
    { eexists; split; [reflexivity | discriminate]. }
    apply getEsc_shorter in H2. pose proof (length_drop1 chunk1).
    edestruct (IH chunk2) as (res & -> & Hres); [lia |].
    eexists; split; [reflexivity |]. intros b rest ->.
    specialize (Hres _ _ eq_refl). lia.
  - edestruct (IH chunk1) as (res & -> & Hres); [lia |].
    eexists; split; [reflexivity |]. intros b rest ->.
    specialize (Hres _ _ eq_refl). lia.
Qed.

Lemma matchChunkLoop_total fuel : ∀ chunk s failed,
  (String.length chunk < fuel)%nat →
  ∃ res, filepath.matchChunkLoop fuel chunk s failed = Some res.
Proof.
  induction fuel as [|k IH]; intros chunk s failed Hlt; [lia |].
  cbn [filepath.matchChunkLoop].
  destruct chunk as [|c ctail]; [eauto |]. simpl in Hlt.
  destruct (Ascii.eqb c "[").
  - match goal with
    | |- context [let '(_, _) := ?e in _] => destruct e as [r s1]
    end.
    set (chunk1 := if filepath.starts_with "^" ctail
                   then Slice.drop 1 ctail else ctail).
    assert (String.length chunk1 <= String.length ctail)%nat
      by (subst chunk1; destruct (filepath.starts_with "^" ctail);
          [apply length_drop1 | lia]).
    destruct (classLoop_total k chunk1 r false 0) as (res & -> & Hres);
      [lia |].
    destruct res as [e | [matched chunk2]]; [eauto |].
    specialize (Hres _ _ eq_refl). apply IH. lia.
  - destruct (Ascii.eqb c "?").
    + destruct (failed || Slice.is_empty s); [apply IH; lia |].
      destruct (utf8.DecodeRuneInString s). apply IH. lia.
    + destruct (Ascii.eqb c "\").
      * destruct ctail as [|c1 ctail']; [eauto |]. simpl in Hlt.
        destruct (failed || Slice.is_empty s); [apply IH; lia |].
        destruct s; apply IH; lia.
      * destruct (failed || Slice.is_empty s); [apply IH; lia |].
        destruct s; apply IH; lia.
Qed.

(** [matchChunk] is its loop. *)
Lemma matchChunk_loop chunk s :
  filepath.matchChunkLoop (S (String.length chunk)) chunk s false
  = Some (filepath.matchChunk chunk s).
Proof.
  unfold filepath.matchChunk.
  destruct (matchChunkLoop_total (S (String.length chunk)) chunk s false)
    as [res ->]; [lia | reflexivity].
Qed.

Lemma skipStars_length star pattern :
  (String.length (snd (filepath.skipStars star pattern))
   <= String.length pattern)%nat.
Proof.
  revert star; induction pattern as [|c t IH]; intros star; simpl; [lia |].
  destruct (Ascii.eqb c "*"); simpl; [specialize (IH true) |]; lia.
Qed.

Lemma skipStars_no_star star pattern :
  filepath.starts_with "*" (snd (filepath.skipStars star pattern)) = false.
Proof.
  revert star; induction pattern as [|c t IH]; intros star; simpl;
    [reflexivity |].
  destruct (Ascii.eqb c "*") eqn:Hc; [apply IH | simpl; exact Hc].
Qed.

Lemma scan_length inrange pattern :
  (String.length (snd (filepath.scan inrange pattern))
   <= String.length pattern)%nat.
Proof.
  revert inrange.
  assert (Hstrong : ∀ n pattern inrange,
             (String.length pattern <= n)%nat →
             (String.length (snd (filepath.scan inrange pattern))
              <= String.length pattern)%nat).
  { induction n as [|n IH]; intros [|c t] inrange Hn; simpl in *;
      try lia.
    destruct (Ascii.eqb c "\").
    - destruct t as [|d t']; simpl in *; [lia |].
      specialize (IH t' inrange).
      destruct (filepath.scan inrange t'); simpl in *. lia.
    - repeat match goal with
             | |- context [if ?b then _ else _] => destruct b
             end; simpl; try lia;
      match goal with
      | |- context [filepath.scan ?b t] =>
        specialize (IH t b); destruct (filepath.scan b t); simpl in *; lia
      end. }
  intros inrange. now apply (Hstrong (String.length pattern)).
Qed.

(** A chunk that does not begin with a star consumes a byte. *)
Lemma scan_progress pattern :
  pattern ≠ "" → filepath.starts_with "*" pattern = false →
  (String.length (snd (filepath.scan false pattern))
   < String.length pattern)%nat.
Proof.
  destruct pattern as [|c t]; [congruence |]. intros _ Hc. simpl in *.
  rewrite Hc. simpl.
  destruct (Ascii.eqb c "\").
  - destruct t as [|d t']; simpl; [lia |].
    pose proof (scan_length false t').
    destruct (filepath.scan false t'); simpl in *. lia.
  - repeat match goal with
           | |- context [if ?b then _ else _] => destruct b
           end;
    match goal with
    | |- context [filepath.scan ?b t] =>
      pose proof (scan_length b t); destruct (filepath.scan b t);
      simpl in *; lia
    end.
Qed.

Lemma scanChunk_shorter pattern star chunk rest :
  pattern ≠ "" → filepath.scanChunk pattern = (star, chunk, rest) →
  (String.length rest < String.length pattern)%nat.
Proof.
  unfold filepath.scanChunk. intros Hne.
  pose proof (skipStars_length false pattern) as Hlen.
  pose proof (skipStars_no_star false pattern) as Hstar.
  destruct (filepath.skipStars false pattern) as [st p1] eqn:Hs.
  simpl in *.
  destruct (filepath.scan false p1) as [ch r1] eqn:Hscan.
  intros [= <- <- <-].
  destruct p1 as [|c1 t1].
  - simpl in Hscan. injection Hscan as <- <-.
    destruct pattern; [congruence | simpl; lia].
  - pose proof (scan_progress (String c1 t1)) as Hp.
    rewrite Hscan in Hp. simpl in Hp. specialize (Hp ltac:(discriminate) Hstar).
    simpl in Hlen. lia.
Qed.

Lemma checkRest_total fuel : ∀ pattern,
  (String.length pattern < fuel)%nat →
  ∃ res, filepath.checkRest fuel pattern = Some res.
Proof.
  induction fuel as [|k IH]; intros pattern Hlt; [lia |].
  simpl. destruct pattern as [|c t]; [eauto |].
  destruct (filepath.scanChunk (String c t)) as [[star chunk] rest] eqn:Hs.
  apply scanChunk_shorter in Hs; [| discriminate].
  destruct (filepath.matchChunk chunk "") as [[t0 ok] [e|]]; [eauto |].
  apply IH. lia.
Qed.

Lemma MatchLoop_total fuel : ∀ pattern name,
  (String.length pattern < fuel)%nat →
  ∃ res, filepath.MatchLoop fuel pattern name = Some res.
Proof.
  induction fuel as [|k IH]; intros pattern name Hlt; [lia |].
  simpl. destruct pattern as [|c t]; [eauto |].
  destruct (filepath.scanChunk (String c t)) as [[star chunk] rest] eqn:Hs.
  apply scanChunk_shorter in Hs; [| discriminate].
  destruct (star && Slice.is_empty chunk); [eauto |].
  destruct (filepath.matchChunk chunk name) as [[t0 ok] err].
  destruct (ok && (Slice.is_empty t0 || negb (Slice.is_empty rest)));
    [apply IH; lia |].
  destruct err as [e|]; [eauto |].
  destruct (if star then _ else _); [apply IH; lia | eauto |].
  destruct (checkRest_total k rest) as [res ->]; [lia | eauto].
Qed.

(** [Match] is the result of its loop: the loop ends within the fuel
    given by the length of the pattern. *)
Lemma Match_loop pattern name :
  filepath.MatchLoop (S (String.length pattern)) pattern name
  = Some (filepath.Match pattern name).
Proof.
  unfold filepath.Match.
  destruct (MatchLoop_total (S (String.length pattern)) pattern name)
    as [res ->]; [lia | reflexivity].
Qed.

End MatchTotal.

(** ** strings.TrimSpace does not depend on the fuel of its loops *)

Section TrimFuel.

Lemma trimLeft_fuel f : ∀ fuel1 fuel2 s,
  (String.length s <= fuel1)%nat → (String.length s <= fuel2)%nat →
  strings.trimLeft fuel1 f s = strings.trimLeft fuel2 f s.
Proof.
  induction fuel1 as [|k1 IH]; intros fuel2 s H1 H2.
  - destruct s; [| simpl in H1; lia]. now destruct fuel2.
  - destruct s as [|c t]; [now destruct fuel2 |].
    destruct fuel2 as [|k2]; [simpl in H2; lia |].
    cbn [strings.trimLeft].
    pose proof (DecodeRune_width (String c t) ltac:(discriminate)) as Hw.
    destruct (utf8.DecodeRuneInString (String c t)) as [r n].
    simpl in Hw. destruct (f r); [| reflexivity].
    apply IH; rewrite length_drop; simpl in *; lia.
Qed.

Lemma findStart_le n s : ∀ start lim,
  utf8.findStart n s start lim <= start.
Proof.
  induction n as [|k IH]; intros start lim; simpl; [lia |].
  destruct (start <? lim); [lia |].
  destruct (utf8.RuneStart _); [lia |].
  specialize (IH (start - 1) lim). lia.
Qed.

Lemma DecodeLastRune_width s :
  s ≠ "" → (1 <= snd (utf8.DecodeLastRuneInString s))%nat.
Proof.
  intros Hne. unfold utf8.DecodeLastRuneInString.
  assert (Hlen : 0 < Z.of_nat (String.length s))
    by (destruct s; [congruence | simpl; lia]).
  destruct (Z.eqb_spec (Z.of_nat (String.length s)) 0) as [Hz | _]; [lia |].
  destruct (_ <? utf8.RuneSelf); [simpl; lia |].
  set (start := Z.max _ 0).
  assert (Hstart : 0 <= start < Z.of_nat (String.length s)).
  { subst start.
    pose proof (findStart_le utf8.UTFMax s
                  (Z.of_nat (String.length s) - 2)
                  (Z.max (Z.of_nat (String.length s)
                          - Z.of_nat utf8.UTFMax) 0)).
    lia. }
  destruct (utf8.DecodeRuneInString _) as [r size].
  destruct (Z.eqb_spec (start + Z.of_nat size)
                       (Z.of_nat (String.length s))) as [Heq | _];
    simpl; lia.
Qed.

Lemma length_take n s :
  String.length (Slice.take n s) = Nat.min n (String.length s).
Proof.
  revert s; induction n as [|n IH]; intros [|c s]; simpl; try reflexivity.
  now rewrite IH.
Qed.

Lemma lastIndexFunc_fuel s f : ∀ fuel1 fuel2 i,
  i <= Z.of_nat fuel1 → i <= Z.of_nat fuel2 →
  i <= Z.of_nat (String.length s) →
  strings.lastIndexFunc fuel1 s f i = strings.lastIndexFunc fuel2 s f i.
Proof.
  induction fuel1 as [|k1 IH]; intros fuel2 i H1 H2 Hs.
  - destruct fuel2 as [|k2]; [reflexivity |]. simpl.
    destruct (Z.leb_spec i 0); [reflexivity | lia].
  - destruct fuel2 as [|k2]; simpl.
    + destruct (Z.leb_spec i 0); [reflexivity | lia].
    + destruct (Z.leb_spec i 0) as [| Hpos]; [reflexivity |].
      pose proof (DecodeLastRune_width (Slice.take (Z.to_nat i) s)) as Hw.
      destruct (utf8.DecodeLastRuneInString _) as [r size]. simpl in Hw.
      assert (1 <= size)%nat.
      { apply Hw. intros Hempty.
        apply (f_equal String.length) in Hempty.
        rewrite length_take in Hempty. simpl in Hempty. lia. }
      destruct (negb (f r)); [reflexivity |]. apply IH; lia.
Qed.

End TrimFuel.

(** ** filepath.Match on a pattern [prefix *] whose prefix is plain *)

Section MatchPlain.

Lemma plain_cons c s :
  spec.plain (String c s) = true →
  Ascii.eqb c "*" = false ∧ Ascii.eqb c "?" = false
  ∧ Ascii.eqb c "[" = false ∧ Ascii.eqb c "\" = false
  ∧ spec.plain s = true.
Proof.
  simpl. unfold spec.meta. intros [Hm Hs]%andb_prop.
  apply negb_true_iff in Hm.
  repeat (apply orb_false_elim in Hm as [Hm ?]). auto.
Qed.

Lemma skipStars_plain p :
  spec.plain p = true →
  filepath.skipStars false (p +:+ " *") = (false, p +:+ " *").
Proof.
  destruct p as [|c p]; [reflexivity |].
  intros (Hstar & _)%plain_cons. rewrite append_cons. simpl.
  now rewrite Hstar.
Qed.

Lemma scan_plain p q :
  spec.plain p = true →
  filepath.scan false (p +:+ q)
  = (p +:+ fst (filepath.scan false q), snd (filepath.scan false q)).
Proof.
  induction p as [|c p IH]; intros Hp.
  - rewrite !append_nil. now destruct (filepath.scan false q).
  - apply plain_cons in Hp as (Hstar & _ & Hbr & Hbs & Hp).
    rewrite !append_cons. cbn [filepath.scan].
    rewrite Hbs, Hbr, Hstar, (IH Hp). simpl.
    now destruct (Ascii.eqb c "]").
Qed.

Lemma scanChunk_plain p :
  spec.plain p = true →
  filepath.scanChunk (p +:+ " *") = (false, p +:+ " ", "*").
Proof.
  intros Hp. unfold filepath.scanChunk.
  rewrite (skipStars_plain _ Hp), (scan_plain _ _ Hp). reflexivity.
Qed.



Lemma MatchLoop_step k pattern name :
  pattern ≠ "" →
  filepath.MatchLoop (S k) pattern name
  = let '(star, chunk, rest) := filepath.scanChunk pattern in
    if star && Slice.is_empty chunk then
      Some (negb (strings.Contains name "/"), None)
    else
      let '(t, ok, err) := filepath.matchChunk chunk name in
      if ok && (Slice.is_empty t || negb (Slice.is_empty rest)) then
        filepath.MatchLoop k rest t
      else
        match err with
        | Some e => Some (false, Some e)
        | None =>
          match (if star
                 then filepath.starLoop chunk (Slice.is_empty rest) name
                 else filepath.StarNone) with
          | filepath.StarFound t => filepath.MatchLoop k rest t
          | filepath.StarError e => Some (false, Some e)
          | filepath.StarNone =>
            match filepath.checkRest k rest with
            | Some err => Some (false, err)
            | None => None
            end
          end
        end.
Proof. destruct pattern; [congruence | reflexivity]. Qed.


End MatchPlain.

(** ** The policy engine *)

Section PolicyFacts.

Lemma HasPrefix_char c s :
  strings.HasPrefix s (String c "") = filepath.starts_with c s.
Proof.
  unfold strings.HasPrefix. destruct s as [|c0 t]; [reflexivity |].
  simpl. now destruct (Ascii.eqb c0 c).
Qed.


Lemma firstMatch_Some rules command rule :
  policy.firstMatch rules command = Some rule →
  ∃ before after,
    rules = before ++ rule :: after
    ∧ spec.unmatched before command
    ∧ policy.matchPattern (types.Pattern rule) command = true.
Proof.
  unfold policy.firstMatch, spec.unmatched.
  induction rules as [|r rules IH]; simpl; [discriminate |].
  destruct (policy.matchPattern (types.Pattern r) command) eqn:Hm.
  - intros [= <-]. exists [], rules. auto.
  - intros (before & after & -> & Hb & Hr)%IH.
    exists (r :: before), after. auto.
Qed.

Lemma firstMatch_None rules command :
  policy.firstMatch rules command = None ↔ spec.unmatched rules command.
Proof.
  unfold policy.firstMatch, spec.unmatched.
  induction rules as [|r rules IH]; simpl; [split; auto |].
  destruct (policy.matchPattern (types.Pattern r) command) eqn:Hm.
  - split; [discriminate |]. intros [Hr _]%Forall_cons. congruence.
  - rewrite IH. split; [auto | now intros [_ ?]%Forall_cons].
Qed.

Lemma firstMatch_exists rules command r :
  r ∈ rules → policy.matchPattern (types.Pattern r) command = true →
  ∃ rule, policy.firstMatch rules command = Some rule.
Proof.
  intros Hin Hm.
  destruct (policy.firstMatch rules command) eqn:Hf; [eauto |].
  apply firstMatch_None in Hf. unfold spec.unmatched in Hf.
  rewrite Forall_forall in Hf. specialize (Hf r Hin). congruence.
Qed.

End PolicyFacts.

(** C1.  Block precedence: when some block rule matches the trimmed
    command, [EvaluateCommand] returns a blocked result whatever the allow
    rules are; the result carries the first block rule that matches, in
    list order, and its reason. *)
Theorem EvaluateCommand_block_precedence
        (e : policy.Engine) (command : string) (r : types.Rule) :
  r ∈ types.Block (types.Rules (policy.config e)) →
  policy.matchPattern (types.Pattern r) (strings.TrimSpace command) = true →
  ∃ rule before after,
    types.Block (types.Rules (policy.config e)) = before ++ rule :: after
    ∧ spec.unmatched before (strings.TrimSpace command)
    ∧ policy.matchPattern (types.Pattern rule) (strings.TrimSpace command)
      = true
    ∧ policy.EvaluateCommand e command
      = {| policy.Allowed := false; policy.Action := types.ActionBlock;
           policy.Rule := Some rule; policy.Reason := types.Reason rule |}.
Proof.
  intros Hin Hm.
  destruct (firstMatch_exists _ _ _ Hin Hm) as [rule Hf].
  destruct (firstMatch_Some _ _ _ Hf) as (before & after & Hl & Hb & Hr).
  exists rule, before, after. repeat split; try assumption.
  unfold policy.EvaluateCommand. now rewrite Hf.
Qed.

(** The rule set of the repository's test [TestBlockRulesTakePriority]:
    the allow rule [rm *] matches the command as well. *)
Lemma EvaluateCommand_block_precedence_witness :
  let rule := config.block "rm -rf /" "blocked" in
  let e := policy.New
             {| types.Sandbox := types.Sandbox config.DefaultConfig;
                types.Secrets := types.Secrets config.DefaultConfig;
                types.Audit := types.Audit config.DefaultConfig;
                types.Rules :=
                  {| types.Allow := [config.allow "rm *"];
                     types.Block := [rule] |} |} in
  rule ∈ types.Block (types.Rules (policy.config e))
  ∧ policy.matchPattern (types.Pattern rule) (strings.TrimSpace "rm -rf /")
    = true
  ∧ policy.matchPattern "rm *" (strings.TrimSpace "rm -rf /") = true
  ∧ policy.Allowed (policy.EvaluateCommand e "rm -rf /") = false
  ∧ policy.Action (policy.EvaluateCommand e "rm -rf /") = types.ActionBlock.
Proof.
  intros rule e.
  assert (Hin : rule ∈ types.Block (types.Rules (policy.config e)))
    by (apply list_elem_of_singleton; reflexivity).
  assert (Hm : policy.matchPattern (types.Pattern rule)
                                   (strings.TrimSpace "rm -rf /") = true)
    by (vm_compute; reflexivity).
  split; [exact Hin |]. split; [exact Hm |].
  split; [vm_compute; reflexivity |].
  destruct (EvaluateCommand_block_precedence e "rm -rf /" rule Hin Hm)
    as (rule' & before & after & _ & _ & _ & ->).
  split; reflexivity.
Defined.

(** C4, as stated, fails: the reason of the default denial is not the
    string "not in allowlist". *)
Lemma EvaluateCommand_default_reason_counterexample :
  let e := policy.New config.DefaultConfig in
  let command := "some-unknown-tool --flag" in
  spec.unmatched (types.Block (types.Rules (policy.config e)))
                 (strings.TrimSpace command)
  ∧ spec.unmatched (types.Allow (types.Rules (policy.config e)))
                   (strings.TrimSpace command)
  ∧ policy.Allowed (policy.EvaluateCommand e command) = false
  ∧ policy.Reason (policy.EvaluateCommand e command) ≠ "not in allowlist".
Proof.
  intros e command. repeat split.
  - apply firstMatch_None. vm_compute. reflexivity.
  - apply firstMatch_None. vm_compute. reflexivity.
  - vm_compute. discriminate.
Qed.

(** C4, amended.  Default deny: a command matched by no block rule and no
    allow rule is blocked, by no rule, with the reason "Command not in
    allowlist". *)
Theorem EvaluateCommand_default_deny (e : policy.Engine) (command : string) :
  spec.unmatched (types.Block (types.Rules (policy.config e)))
                 (strings.TrimSpace command) →
  spec.unmatched (types.Allow (types.Rules (policy.config e)))
                 (strings.TrimSpace command) →
  policy.EvaluateCommand e command
  = {| policy.Allowed := false; policy.Action := types.ActionBlock;
       policy.Rule := None; policy.Reason := "Command not in allowlist" |}.
Proof.
  intros Hb%firstMatch_None Ha%firstMatch_None.
  unfold policy.EvaluateCommand. now rewrite Hb, Ha.
Qed.

Lemma EvaluateCommand_default_deny_witness :
  policy.EvaluateCommand (policy.New config.DefaultConfig)
                         "some-unknown-tool --flag"
  = {| policy.Allowed := false; policy.Action := types.ActionBlock;
       policy.Rule := None; policy.Reason := "Command not in allowlist" |}.
Proof.
  apply (EvaluateCommand_default_deny (policy.New config.DefaultConfig)
                                      "some-unknown-tool --flag").
  - apply firstMatch_None. vm_compute. reflexivity.
  - apply firstMatch_None. vm_compute. reflexivity.
Defined.

(** C5.  A block rule without a reason gives a blocked result whose reason
    is empty: the engine copies [rule.Reason] as it is, whereas the
    enforcement shell falls back to "Blocked by policy". *)
Theorem EvaluateCommand_blocked_with_empty_reason :
  let rule := config.block "sudo *" "" in
  let e := policy.New
             {| types.Sandbox := types.Sandbox config.DefaultConfig;
                types.Secrets := types.Secrets config.DefaultConfig;
                types.Audit := types.Audit config.DefaultConfig;
                types.Rules := {| types.Allow := [];
                                  types.Block := [rule] |} |} in
  policy.EvaluateCommand e "sudo ls"
  = {| policy.Allowed := false; policy.Action := types.ActionBlock;
       policy.Rule := Some rule; policy.Reason := "" |}
  ∧ ∀ glob,
      shell.check_policy glob (Some (artifact.fill (policy.config e)))
                         "sudo ls"
      = (false, [ {| shell.action := "block"; shell.command := "sudo ls";
                     shell.reason := "Blocked by policy" |} ]).
Proof. split; [| intros glob]; vm_compute; reflexivity. Qed.

(** X26.  The reason of a blocked command is not empty when the block
    rules all carry one. *)
Lemma EvaluateCommand_blocked_reason (e : policy.Engine) (command : string) :
  Forall (fun r => types.Reason r ≠ "")
         (types.Block (types.Rules (policy.config e))) →
  policy.Allowed (policy.EvaluateCommand e command) = false →
  policy.Reason (policy.EvaluateCommand e command) ≠ "".
Proof.
  intros Hall. unfold policy.EvaluateCommand.
  destruct (policy.firstMatch (types.Block _) _) as [rule|] eqn:Hb; simpl.
  - intros _. apply firstMatch_Some in Hb as (before & after & Hl & _).
    rewrite Hl in Hall. apply Forall_app in Hall as [_ Hall].
    now apply Forall_cons in Hall as [Hr _].
  - destruct (policy.firstMatch (types.Allow _) _); simpl; discriminate.
Qed.

(** X27.  Both variants of [EvaluateFileAccess] give a reason with every
    blocked result. *)
Lemma EvaluateFileAccess_blocked_reason (e : policy.Engine) (path : string) :
  (policy.Allowed (policy.EvaluateFileAccess e path) = false →
   policy.Reason (policy.EvaluateFileAccess e path) ≠ "")
  ∧ (policy.Allowed (policy_part_009.EvaluateFileAccess e path) = false →
     policy.Reason (policy_part_009.EvaluateFileAccess e path) ≠ "").
Proof.
  unfold policy.EvaluateFileAccess, policy_part_009.EvaluateFileAccess,
    policy_part_009.blockedSensitive.
  split; repeat case_match; simpl; intros; discriminate.
Qed.

(** ** Patterns that end in space-star *)

Section SpaceStar.

Variable glob : string → string → bool.





End SpaceStar.




(** ** Sensitive files *)

(** C3.  The engine of src/internal/policy/engine.go allows a sensitive
    file nested under the workspace: the star of its patterns does not
    cross a separator, so [*/.env] misses [/workspace/sub/.env], and the
    path is then allowed as a workspace path.  The same holds for
    [/workspace/.env], which the repository's test
    [TestEvaluateFileAccess_BlockSensitive] expects to be blocked, and for
    the other kinds of sensitive paths.  The variant of the engine in
    src/unnamed/part_009 blocks them. *)
Theorem EvaluateFileAccess_nested_sensitive_allowed (e : policy.Engine) :
  Forall (fun path =>
            spec.sensitive path = true
            ∧ policy.EvaluateFileAccess e path
              = {| policy.Allowed := true;
                   policy.Action := types.ActionAllow;
                   policy.Rule := None; policy.Reason := "" |}
            ∧ policy.Allowed (policy_part_009.EvaluateFileAccess e path)
              = false)
         [ "/workspace/sub/.env"; "/workspace/.env";
           "/workspace/sub/.env.production"; "/workspace/sub/id_rsa";
           "/workspace/home/.ssh/keys/id"; "/workspace/a/.aws/credentials";
           "/workspace/a/.gnupg/x/y" ].
Proof. repeat constructor. Qed.

(** X28.  The variant of src/unnamed/part_009 blocks every sensitive
    path. *)
Theorem EvaluateFileAccess_part_009_sensitive_blocked
        (e : policy.Engine) (path : string) :
  spec.sensitive path = true →
  policy.Allowed (policy_part_009.EvaluateFileAccess e path) = false.
Proof.
  intros Hs. unfold policy_part_009.EvaluateFileAccess.
  destruct (existsb _ policy_part_009.sensitiveFiles) eqn:E1;
    [reflexivity |].
  destruct (strings.HasPrefix (filepath.Base path) ".env.") eqn:E2;
    [reflexivity |].
  destruct (existsb _ policy_part_009.sensitiveParents) eqn:E3;
    [reflexivity |].
  destruct (String.eqb _ "config.json" && _); [reflexivity |].
  destruct (strings.HasPrefix path "/workspace") eqn:E5; [| reflexivity].
  exfalso. unfold spec.sensitive in Hs. rewrite E2, orb_false_r in Hs.
  simpl in E1, E3, Hs.
  repeat match goal with
         | H : _ || _ = false |- _ => apply orb_false_elim in H as [? ?]
         end.
  apply HasPrefix_inv in E5 as [t ->].
  unfold spec.under in Hs.
  repeat match goal with
         | H : ?b = false |- _ => rewrite H in Hs; clear H
         end.
  vm_compute in Hs. congruence.
Qed.

Lemma EvaluateFileAccess_part_009_sensitive_blocked_witness :
  spec.sensitive "/workspace/sub/.env" = true
  ∧ policy.Allowed
      (policy_part_009.EvaluateFileAccess (policy.New config.DefaultConfig)
                                          "/workspace/sub/.env") = false.
Proof.
  split; [reflexivity |].
  apply (EvaluateFileAccess_part_009_sensitive_blocked
           (policy.New config.DefaultConfig) "/workspace/sub/.env").
  reflexivity.
Defined.

(** ** The host engine and the enforcement shell *)

(** C2.  The two layers disagree.  With the single allow rule [git *], the
    host engine trims the command [ git status] and allows it, the shell
    does not trim and denies it.  With the block rule [s?do *] and the
    allow rule [sudo *], the host engine reaches the glob match and blocks
    [sudo ls], the shell stops at the prefix test of the block rule and
    permits it.  Neither case reaches bash's pattern matcher. *)
Theorem host_and_shell_disagree (glob : string → string → bool) :
  let rules allow block :=
    {| types.Sandbox := types.Sandbox config.DefaultConfig;
       types.Secrets := types.Secrets config.DefaultConfig;
       types.Audit := types.Audit config.DefaultConfig;
       types.Rules := {| types.Allow := allow; types.Block := block |} |} in
  let cfg1 := rules [config.allow "git *"] [] in
  let cfg2 := rules [config.allow "sudo *"] [config.block "s?do *" "no"] in
  (policy.Allowed (policy.EvaluateCommand (policy.New cfg1) " git status")
   = true
   ∧ fst (shell.check_policy glob (Some (artifact.fill cfg1)) " git status")
     = false)
  ∧ (policy.Allowed (policy.EvaluateCommand (policy.New cfg2) "sudo ls")
     = false
     ∧ fst (shell.check_policy glob (Some (artifact.fill cfg2)) "sudo ls")
       = true).
Proof. repeat split; vm_compute; reflexivity. Qed.

(** ** What the shell reads back from the policy file *)

Section ReadBack.

Lemma ascii_text_cons c s :
  props.ascii_text (String c s) = true →
  (byte_val c <? utf8.RuneSelf) = true
  ∧ Ascii.eqb c shell.NUL = false
  ∧ props.ascii_text s = true.
Proof.
  simpl. intros [[Hpos Hlt]%andb_prop Hs]%andb_prop.
  repeat split; [exact Hlt | | exact Hs].
  destruct (Ascii.eqb_spec c shell.NUL) as [-> | _]; [| reflexivity].
  vm_compute in Hpos. congruence.
Qed.

Lemma ascii_text_append s t :
  props.ascii_text (s +:+ t) = true →
  props.ascii_text s = true ∧ props.ascii_text t = true.
Proof.
  induction s as [|c s IH]; [now rewrite append_nil |].
  rewrite append_cons. simpl.
  intros [Hc Hst]%andb_prop. apply IH in Hst as [Hs Ht].
  now rewrite Hc, Hs.
Qed.

(** Text of ASCII characters is written to the policy file and read back
    from the JSON as it is. *)
Lemma readBackLoop_ascii s : ∀ fuel,
  props.ascii_text s = true → (String.length s <= fuel)%nat →
  json.readBackLoop fuel s = s.
Proof.
  induction s as [|c s IH]; intros [|fuel] Hs Hlen; simpl in Hlen;
    try reflexivity; try lia.
  apply ascii_text_cons in Hs as (Hlt & _ & Hs).
  cbn [json.readBackLoop]. rewrite Hlt, IH by (assumption || lia).
  reflexivity.
Qed.

Lemma readBack_ascii s :
  props.ascii_text s = true → json.readBack s = s.
Proof. intros Hs. now apply readBackLoop_ascii. Qed.

Lemma drop_nul_ascii s :
  props.ascii_text s = true → shell.drop_nul s = s.
Proof.
  induction s as [|c s IH]; [reflexivity |].
  intros (_ & Hnul & Hs)%ascii_text_cons.
  cbn [shell.drop_nul]. now rewrite Hnul, IH.
Qed.

Lemma drop_nul_append s t :
  shell.drop_nul (s +:+ t) = shell.drop_nul s +:+ shell.drop_nul t.
Proof.
  induction s as [|c s IH]; [now rewrite !append_nil |].
  rewrite append_cons. cbn [shell.drop_nul].
  destruct (Ascii.eqb c shell.NUL); [exact IH |].
  now rewrite append_cons, IH.
Qed.

(** The newline that jq prints after the string is removed. *)
Lemma strip_newlines_LF s :
  shell.strip_newlines (s +:+ String shell.LF "") = shell.strip_newlines s.
Proof.
  induction s as [|c s IH]; [reflexivity |].
  rewrite append_cons. cbn [shell.strip_newlines]. now rewrite IH.
Qed.

Lemma strip_newlines_last s c :
  Ascii.eqb c shell.LF = false →
  shell.strip_newlines (s +:+ String c "") = s +:+ String c "".
Proof.
  intros Hc. induction s as [|a s IH].
  - rewrite append_nil. cbn [shell.strip_newlines]. now rewrite Hc.
  - rewrite append_cons. cbn [shell.strip_newlines]. rewrite IH.
    destruct s; rewrite ?append_nil, ?append_cons; simpl;
      now rewrite andb_false_r.
Qed.

(** A pattern of ASCII characters that does not end in a newline comes
    out of [$(jq -r ...)] as it is in the file. *)
Lemma jq_r_ascii s c :
  props.ascii_text (s +:+ String c "") = true →
  Ascii.eqb c shell.LF = false →
  shell.jq_r (s +:+ String c "") = s +:+ String c "".
Proof.
  intros Hs Hc. unfold shell.jq_r, shell.capture.
  rewrite drop_nul_append, (drop_nul_ascii _ Hs).
  change (shell.drop_nul (String shell.LF "")) with (String shell.LF "").
  now rewrite strip_newlines_LF, strip_newlines_last.
Qed.

(** The shell holds a space-star pattern of ASCII characters as the
    configuration has it. *)
Lemma pattern_of_space_star p (reason : string) :
  props.ascii_text (p +:+ " *") = true →
  shell.pattern_of {| artifact.Pattern := json.readBack (p +:+ " *");
                      artifact.Reason := reason |}
  = p +:+ " *".
Proof.
  intros Hs. unfold shell.pattern_of. simpl.
  rewrite (readBack_ascii _ Hs).
  replace (p +:+ " *") with ((p +:+ " ") +:+ "*") in *
    by (rewrite append_assoc; reflexivity).
  now apply jq_r_ascii.
Qed.




End ReadBack.

(** ** Where the host engine and the shell agree *)

Section Agreement.

Variable glob : string → string → bool.

Lemma HasPrefix_cons c0 s c p :
  strings.HasPrefix (String c0 s) (String c p)
  = Ascii.eqb c0 c && strings.HasPrefix s p.
Proof.
  unfold strings.HasPrefix. simpl.
  destruct (Ascii.eqb c0 c); simpl; [reflexivity | apply andb_false_r].
Qed.

(** A plain chunk matches exactly the names that start with it. *)
Lemma matchChunkLoop_plain_any chunk : ∀ fuel s failed,
  spec.plain chunk = true → (String.length chunk < fuel)%nat →
  filepath.matchChunkLoop fuel chunk s failed
  = Some (if failed || negb (strings.HasPrefix s chunk)
          then ("", false, None)
          else (Slice.drop (String.length chunk) s, true, None)).
Proof.
  induction chunk as [|c chunk IH]; intros fuel s failed Hp Hlt;
    (destruct fuel as [|k]; [simpl in Hlt; lia |]).
  - simpl. destruct failed; [reflexivity |].
    now destruct s.
  - apply plain_cons in Hp as (_ & Hq & Hbr & Hbs & Hp). simpl in Hlt.
    cbn [filepath.matchChunkLoop]. rewrite Hbr, Hq, Hbs.
    destruct s as [|c0 s].
    + rewrite orb_true_r, IH by (assumption || lia).
      now rewrite !orb_true_r.
    + simpl Slice.is_empty. rewrite orb_false_r.
      destruct failed; [now rewrite IH by (assumption || lia) |].
      rewrite IH by (assumption || lia).
      rewrite HasPrefix_cons, (Ascii.eqb_sym c0 c). simpl.
      now destruct (Ascii.eqb c c0), (strings.HasPrefix s chunk).
Qed.

Lemma Match_plain_any p command :
  spec.plain p = true →
  strings.HasPrefix command (p +:+ " ") = false →
  filepath.Match (p +:+ " *") command = (false, None).
Proof.
  intros Hp Hpre.
  assert (Hplain : spec.plain (p +:+ " ") = true).
  { clear Hpre. induction p as [|c p IH]; [reflexivity |].
    rewrite append_cons. simpl in *. apply andb_prop in Hp as [-> Hp].
    now rewrite IH. }
  pose proof (Match_loop (p +:+ " *") command) as Hloop.
  rewrite MatchLoop_step in Hloop by (destruct p; discriminate).
  rewrite (scanChunk_plain _ Hp) in Hloop. simpl andb in Hloop.
  cbv iota beta in Hloop.
  assert (Hchunk : filepath.matchChunk (p +:+ " ") command
                   = ("", false, None)).
  { pose proof (matchChunk_loop (p +:+ " ") command) as Hc.
    rewrite matchChunkLoop_plain_any in Hc by (assumption || lia).
    rewrite Hpre in Hc. simpl in Hc. now injection Hc as <-. }
  rewrite Hchunk in Hloop. simpl andb in Hloop. cbv iota beta in Hloop.
  rewrite length_append, Nat.add_comm in Hloop. simpl in Hloop.
  now injection Hloop as <-.
Qed.

(** On a pattern with a plain prefix the two matchers agree. *)
Lemma matchPattern_agree p command :
  spec.plain p = true →
  policy.matchPattern (p +:+ " *") command
  = shell.match_pattern glob (p +:+ " *") command.
Proof.
  intros Hp. unfold policy.matchPattern, shell.match_pattern.
  rewrite HasSuffix_append, TrimSuffix_append. simpl andb.
  destruct (String.eqb command p) eqn:Heq; [reflexivity |].
  destruct (strings.HasPrefix command (p +:+ " ")) eqn:Hpre; [reflexivity |].
  simpl.
  assert (Hstar : strings.HasPrefix (p +:+ " *") "*" = false).
  { rewrite HasPrefix_char. destruct p as [|c p]; [reflexivity |].
    apply plain_cons in Hp as (Hc & _). rewrite append_cons. simpl.
    exact Hc. }
  rewrite Hstar.
  assert (Hne : String.eqb command (p +:+ " *") = false).
  { apply String.eqb_neq. intros ->.
    assert (Hhit : strings.HasPrefix (p +:+ " *") (p +:+ " ") = true).
    { replace (p +:+ " *") with ((p +:+ " ") +:+ "*")
        by (rewrite append_assoc; reflexivity).
      apply HasPrefix_append. }
    congruence. }
  now rewrite Hne, Match_plain_any.
Qed.

Lemma scan_block_agree rules command :
  Forall spec.space_star rules →
  Forall (fun r => props.ascii_text (types.Pattern r) = true) rules →
  shell.scan_block
    glob
    (map (fun r => {| artifact.Pattern := json.readBack (types.Pattern r);
                      artifact.Reason := json.readBack (types.Reason r) |})
         rules)
    command
  = (fun r => shell.block_reason
                {| artifact.Pattern := json.readBack (types.Pattern r);
                   artifact.Reason := json.readBack (types.Reason r) |})
      <$> policy.firstMatch rules command.
Proof.
  unfold policy.firstMatch.
  induction rules as [|r rules IH]; intros Hall Hascii; [reflexivity |].
  apply Forall_cons in Hall as [(p & Hpat & Hp) Hall].
  apply Forall_cons in Hascii as [Hr Hascii]. simpl.
  rewrite Hpat in Hr |- *.
  rewrite (pattern_of_space_star _ _ Hr), <- (matchPattern_agree _ _ Hp).
  destruct (policy.matchPattern (p +:+ " *") command); [reflexivity |].
  now apply IH.
Qed.

Lemma scan_allow_agree rules command :
  Forall spec.space_star rules →
  Forall (fun r => props.ascii_text (types.Pattern r) = true) rules →
  shell.scan_allow
    glob
    (map (fun r => {| artifact.Pattern := json.readBack (types.Pattern r);
                      artifact.Reason := "" |}) rules)
    command
  = bool_decide (is_Some (policy.firstMatch rules command)).
Proof.
  unfold policy.firstMatch.
  induction rules as [|r rules IH]; intros Hall Hascii; [reflexivity |].
  apply Forall_cons in Hall as [(p & Hpat & Hp) Hall].
  apply Forall_cons in Hascii as [Hr Hascii]. simpl.
  rewrite Hpat in Hr |- *.
  rewrite (pattern_of_space_star _ _ Hr), <- (matchPattern_agree _ _ Hp).
  destruct (policy.matchPattern (p +:+ " *") command); [reflexivity |].
  now apply IH.
Qed.

(** X29.  On rule sets made of such patterns, written in ASCII characters
    other than NUL, and for a command without white space around it, the
    shell permits the command exactly when the host engine allows it. *)
Theorem host_and_shell_agree_on_plain_rules
        (cfg : types.ProjectConfig) (command : string) :
  Forall spec.space_star (types.Block (types.Rules cfg)) →
  Forall spec.space_star (types.Allow (types.Rules cfg)) →
  Forall (fun r => props.ascii_text (types.Pattern r) = true)
         (types.Block (types.Rules cfg)
          ++ types.Allow (types.Rules cfg)) →
  strings.TrimSpace command = command →
  fst (shell.check_policy glob (Some (artifact.fill cfg)) command)
  = policy.Allowed (policy.EvaluateCommand (policy.New cfg) command).
Proof.
  intros Hb Ha [Hab Haa]%Forall_app Htrim.
  unfold shell.check_policy, policy.EvaluateCommand, artifact.fill. simpl.
  rewrite Htrim, (scan_block_agree _ _ Hb Hab),
    (scan_allow_agree _ _ Ha Haa).
  destruct (policy.firstMatch (types.Block _) command); [reflexivity |].
  simpl.
  now destruct (policy.firstMatch (types.Allow _) command).
Qed.

End Agreement.

Lemma host_and_shell_agree_on_plain_rules_witness :
  let cfg := {| types.Sandbox := types.Sandbox config.DefaultConfig;
                types.Secrets := types.Secrets config.DefaultConfig;
                types.Audit := types.Audit config.DefaultConfig;
                types.Rules :=
                  {| types.Allow := [config.allow "git *"];
                     types.Block := [config.block "sudo *" "no"] |} |} in
  fst (shell.check_policy (fun _ _ => true) (Some (artifact.fill cfg))
                          "git status")
  = policy.Allowed (policy.EvaluateCommand (policy.New cfg) "git status").
Proof.
  intros cfg.
  apply (host_and_shell_agree_on_plain_rules (fun _ _ => true) cfg
                                              "git status").
  - repeat constructor. exists "sudo". split; reflexivity.
  - repeat constructor. exists "git". split; reflexivity.
  - repeat constructor.
  - vm_compute. reflexivity.
Defined.

(** ** The sandbox engine *)

Section SandboxFacts.
Context {W : Type} `{World W}.

(** C10.  Without a policy engine, [ExecCommand] evaluates no policy and
    writes no audit entry: the command goes straight to the container,
    and only the outside world changes. *)
Theorem ExecCommand_without_policy
        (e : sandbox.Engine) (session : loc) (s : types.Session)
        (cmd : list string) (st : state W) :
  sandbox.policy e = None →
  heap st !! session = Some s →
  sandbox.ExecCommand e session cmd st
  = (with_world st
       (fst (container_exec (types.ContainerID s) cmd (world st))),
     snd (container_exec (types.ContainerID s) cmd (world st)))
  ∧ audit_log (fst (sandbox.ExecCommand e session cmd st)) = audit_log st.
Proof.
  intros Hp Hs.
  assert (Heq : sandbox.ExecCommand e session cmd st
                = (with_world st
                     (fst (container_exec (types.ContainerID s) cmd
                                          (world st))),
                   snd (container_exec (types.ContainerID s) cmd
                                       (world st)))).
  { unfold sandbox.ExecCommand. rewrite Hp.
    unfold sandbox.execInContainer, container_exec, with_world,
      St.bind, St.load, St.call, St.ret.
    rewrite Hs. simpl.
    destruct (ContainerExecCreate _ _ _) as [w1 [err | execID]];
      simpl; [reflexivity |].
    destruct (ContainerExecAttach _ _) as [w2 [err | conn]];
      simpl; [reflexivity |].
    destruct (ReadAll _ _) as [w3 [err | output]]; reflexivity. }
  split; [exact Heq | now rewrite Heq].
Qed.

End SandboxFacts.

Lemma ExecCommand_without_policy_witness :
  sandbox.policy toy.engine_without_policy = None
  ∧ policy.Allowed (policy.EvaluateCommand (policy.New config.DefaultConfig)
                                           "rm -rf /") = false
  ∧ toy.calls (world (fst (sandbox.ExecCommand toy.engine_without_policy
                                               0%nat ["rm"; "-rf"; "/"]
                                               toy.st1)))
    = ["exec container-0: rm -rf /"; "attach exec-1"; "read"; "close"]
  ∧ audit_log (fst (sandbox.ExecCommand toy.engine_without_policy
                                        0%nat ["rm"; "-rf"; "/"] toy.st1))
    = [].
Proof.
  destruct (ExecCommand_without_policy
              toy.engine_without_policy 0%nat toy.session1
              ["rm"; "-rf"; "/"] toy.st1 eq_refl eq_refl) as [-> _].
  repeat split; vm_compute; reflexivity.
Defined.

(** ** The rollback manager *)

Section RollbackFacts.
Context {W : Type} `{World W}.

Lemma findTarget_Some cps id target :
  rollback.findTarget cps id = Some target →
  target ∈ cps ∧ types.CheckpointID target = id.
Proof.
  unfold rollback.findTarget. intros Hf.
  apply find_some in Hf as [Hin Heq]. split.
  - now apply list_elem_of_In.
  - now apply String.eqb_eq.
Qed.

Lemma findTarget_last cps c :
  NoDup (map types.CheckpointID (cps ++ [c])) →
  rollback.findTarget (cps ++ [c]) (types.CheckpointID c) = Some c.
Proof.
  unfold rollback.findTarget.
  induction cps as [|x cps IH]; simpl; intros Hnd.
  - now rewrite String.eqb_refl.
  - apply NoDup_cons in Hnd as [Hx Hnd].
    destruct (String.eqb_spec (types.CheckpointID x)
                              (types.CheckpointID c)) as [Heq | _];
      [| now apply IH].
    exfalso. apply Hx. rewrite Heq, map_app. apply elem_of_app.
    right. simpl. apply list_elem_of_singleton. reflexivity.
Qed.

(** What a rollback that succeeds has done. *)
Lemma restore_success session s target st st' :
  rollback.restore session s target st = (st', None) →
  ∃ w3 containerID w4 w5 now,
    ContainerCreate
      {| docker.Image := types.ImageID target;
         docker.WorkingDir := "/workspace";
         docker.Tty := true; docker.OpenStdin := true |}
      (types.ID s)
      (fst (ContainerRemove
              (types.ContainerID s)
              (fst (ContainerStop (types.ContainerID s) 5 (world st)))))
    = (w3, inr containerID)
    ∧ ContainerStart containerID w3 = (w4, None)
    ∧ Now w4 = (w5, now)
    ∧ st' = mkState w5
                    (<[session := restored s containerID now]> (heap st))
                    (audit_log st) (checkpoints st) (agents st).
Proof.
  unfold rollback.restore, St.bind, St.call, St.store, St.ret. simpl.
  destruct (ContainerStop _ _ _) as [w1 e1]. simpl.
  destruct (ContainerRemove _ _) as [w2 e2]. simpl.
  destruct (ContainerCreate _ _ _) as [w3 [err | containerID]]; simpl;
    [discriminate |].
  destruct (ContainerStart _ _) as [w4 [err |]] eqn:Hstart; simpl;
    [discriminate |].
  destruct (Now w4) as [w5 now] eqn:Hnow. simpl. intros [= <-].
  exists w3, containerID, w4, w5, now. auto.
Qed.

(** X30.  A rollback to the id of a checkpoint of the list succeeds
    whenever the daemon creates and starts the new container, whatever
    stopping and removing the former container gave. *)
Lemma Rollback_succeeds
      (m : rollback.Manager) (session : loc) (checkpointID : string)
      (st : state W) s cps target w3 containerID w4 :
  heap st !! session = Some s →
  checkpoints st !! types.ID s = Some cps →
  rollback.findTarget cps checkpointID = Some target →
  ContainerCreate
    {| docker.Image := types.ImageID target;
       docker.WorkingDir := "/workspace";
       docker.Tty := true; docker.OpenStdin := true |}
    (types.ID s)
    (fst (ContainerRemove
            (types.ContainerID s)
            (fst (ContainerStop (types.ContainerID s) 5 (world st)))))
  = (w3, inr containerID) →
  ContainerStart containerID w3 = (w4, None) →
  snd (rollback.Rollback m session checkpointID st) = None.
Proof.
  intros Hs Hc Hf Hcreate Hstart.
  unfold rollback.Rollback, St.bind, St.load, St.get, St.ret. simpl.
  rewrite Hs, Hc, Hf.
  unfold rollback.restore, St.bind, St.call, St.store, St.ret. simpl.
  destruct (ContainerStop _ _ _) as [w1 e1]. simpl in *.
  destruct (ContainerRemove _ _) as [w2 e2]. simpl in *.
  rewrite Hcreate. simpl. rewrite Hstart. simpl.
  now destruct (Now w4).
Qed.

(** C7.  A rollback that succeeds leaves the checkpoints of every
    session as they were, none removed; the checkpoint id is that of a
    checkpoint of the session's list, and the session now refers to the
    container that the daemon created from the image of that
    checkpoint. *)
Theorem Rollback_keeps_checkpoints
        (m : rollback.Manager) (session : loc) (checkpointID : string)
        (st st' : state W) :
  rollback.Rollback m session checkpointID st = (st', None) →
  checkpoints st' = checkpoints st
  ∧ ∃ s cps target w3 containerID now,
      heap st !! session = Some s
      ∧ checkpoints st !! types.ID s = Some cps
      ∧ target ∈ cps
      ∧ types.CheckpointID target = checkpointID
      ∧ ContainerCreate
          {| docker.Image := types.ImageID target;
             docker.WorkingDir := "/workspace";
             docker.Tty := true; docker.OpenStdin := true |}
          (types.ID s)
          (fst (ContainerRemove
                  (types.ContainerID s)
                  (fst (ContainerStop (types.ContainerID s) 5
                                      (world st)))))
        = (w3, inr containerID)
      ∧ heap st' !! session = Some (restored s containerID now)
      ∧ types.ContainerID (restored s containerID now) = containerID.
Proof.
  unfold rollback.Rollback, St.bind, St.load, St.get, St.ret. simpl.
  destruct (heap st !! session) as [s|] eqn:Hs; [| discriminate].
  destruct (checkpoints st !! types.ID s) as [cps|] eqn:Hc;
    [| discriminate].
  destruct (rollback.findTarget cps checkpointID) as [target|] eqn:Hf;
    [| discriminate].
  intros (w3 & containerID & w4 & w5 & now & Hcreate & _ & _ & ->)
         %restore_success.
  apply findTarget_Some in Hf as [Hin Hid].
  split; [reflexivity |].
  exists s, cps, target, w3, containerID, now. simpl.
  rewrite lookup_insert_eq. auto 10.
Qed.

(** [RollbackToLatest] takes the last element of the list and rolls back
    to its id; with distinct checkpoint ids that restores the session from
    the last element itself; without checkpoints it fails with an error
    that names the session. *)
Theorem RollbackToLatest_last
        (m : rollback.Manager) (session : loc) (s : types.Session)
        (st : state W) :
  heap st !! session = Some s →
  (∀ cps c,
      checkpoints st !! types.ID s = Some (cps ++ [c]) →
      rollback.RollbackToLatest m session st
      = rollback.Rollback m session (types.CheckpointID c) st
      ∧ (NoDup (map types.CheckpointID (cps ++ [c])) →
         rollback.RollbackToLatest m session st
         = rollback.restore session s c st))
  ∧ (checkpoints st !! types.ID s = None
     ∨ checkpoints st !! types.ID s = Some [] →
     rollback.RollbackToLatest m session st
     = (st, Some (Errorf "no checkpoints for session %s" [types.ID s]))).
Proof.
  intros Hs. split.
  - intros cps c Hc.
    assert (Hlatest : rollback.RollbackToLatest m session st
                      = rollback.Rollback m session (types.CheckpointID c)
                                          st).
    { unfold rollback.RollbackToLatest, St.bind, St.load, St.get, St.ret.
      simpl. now rewrite Hs, Hc, last_snoc. }
    split; [exact Hlatest |]. intros Hnd. rewrite Hlatest.
    unfold rollback.Rollback, St.bind, St.load, St.get, St.ret. simpl.
    now rewrite Hs, Hc, findTarget_last.
  - unfold rollback.RollbackToLatest, St.bind, St.load, St.get, St.ret.
    simpl. rewrite Hs. now intros [-> | ->].
Qed.

End RollbackFacts.

Lemma Rollback_keeps_checkpoints_witness :
  snd (rollback.Rollback toy.manager 0%nat "cs-cp-2" toy.st1) = None
  ∧ checkpoints (fst (rollback.Rollback toy.manager 0%nat "cs-cp-2" toy.st1))
    = {[ "cs-x-1" := [toy.c1; toy.c2; toy.c3] ]}
  ∧ types.ContainerID toy.session1 = "container-0"
  ∧ (types.ContainerID
       <$> heap (fst (rollback.Rollback toy.manager 0%nat "cs-cp-2"
                                        toy.st1)) !! 0%nat)
    = Some "container-3".
Proof.
  destruct (rollback.Rollback toy.manager 0%nat "cs-cp-2" toy.st1)
    as [st' res] eqn:Hr.
  assert (Hres : res = None) by (vm_compute in Hr; congruence).
  subst res.
  destruct (Rollback_keeps_checkpoints _ _ _ _ _ Hr) as [Hcp _].
  simpl. rewrite Hcp.
  repeat split; try reflexivity.
  vm_compute in Hr. injection Hr as <-. vm_compute. reflexivity.
Defined.

Lemma RollbackToLatest_last_witness :
  NoDup (map types.CheckpointID ([toy.c1; toy.c2] ++ [toy.c3]))
  ∧ rollback.RollbackToLatest toy.manager 0%nat toy.st1
    = rollback.restore 0%nat toy.session1 toy.c3 toy.st1
  ∧ toy.calls (world (fst (rollback.RollbackToLatest toy.manager 0%nat
                                                     toy.st1)))
    = ["stop container-0"; "remove container-0"; "create image-3";
       "start container-3"; "now"].
Proof.
  assert (Hnd : NoDup (map types.CheckpointID
                           ([toy.c1; toy.c2] ++ [toy.c3]))).
  { apply NoDup_ListNoDup. simpl.
    repeat constructor; simpl; intuition discriminate. }
  destruct (RollbackToLatest_last toy.manager 0%nat toy.session1 toy.st1
                                  eq_refl) as [Hlast _].
  destruct (Hlast [toy.c1; toy.c2] toy.c3 eq_refl) as [_ Hrestore].
  split; [exact Hnd |]. split; [exact (Hrestore Hnd) |].
  vm_compute. reflexivity.
Defined.

(** C8.  [RollbackToLatest] does not always restore from the last element
    of the list.  Two checkpoints of a session made while the clock shows
    the same millisecond get the same id; [RollbackToLatest] takes the
    last of the two and calls [Rollback] with its id, and [Rollback] takes
    the first checkpoint of the list that has the id: the session is
    restored from the image of the first checkpoint, not from that of the
    last.  The same on a list of three whose last id is that of the
    first. *)
Theorem RollbackToLatest_restores_earlier_checkpoint :
  let st1 :=
    fst (rollback.CreateCheckpoint toy.manager 0%nat "first" stalled.st0) in
  let st2 :=
    fst (rollback.CreateCheckpoint toy.manager 0%nat "second" st1) in
  (∃ first second,
      snd (rollback.ListCheckpoints toy.manager "cs-x-1" st2)
      = [first; second]
      ∧ last (snd (rollback.ListCheckpoints toy.manager "cs-x-1" st2))
        = Some second
      ∧ types.CheckpointID first = types.CheckpointID second
      ∧ types.ImageID first = "image-2"
      ∧ types.ImageID second = "image-5"
      ∧ rollback.RollbackToLatest toy.manager 0%nat st2
        = rollback.restore 0%nat toy.session1 first st2
      ∧ snd (rollback.RollbackToLatest toy.manager 0%nat st2) = None
      ∧ toy.calls
          (stalled.inner
             (world (fst (rollback.RollbackToLatest toy.manager 0%nat
                                                    st2))))
        = toy.calls (stalled.inner (world st2))
          ++ ["stop container-0"; "remove container-0"; "create image-2";
              "start container-9"; "now"])
  ∧ last (snd (rollback.ListCheckpoints toy.manager "cs-x-1"
                                        scene.st_same_id))
    = Some (toy.checkpoint "cs-cp-1" "image-3")
  ∧ rollback.RollbackToLatest toy.manager 0%nat scene.st_same_id
    = rollback.restore 0%nat toy.session1 toy.c1 scene.st_same_id
  ∧ toy.calls (world (fst (rollback.RollbackToLatest toy.manager 0%nat
                                                     scene.st_same_id)))
    = ["stop container-0"; "remove container-0"; "create image-1";
       "start container-3"; "now"].
Proof.
  intros st1 st2. split.
  - eexists. eexists. split; [vm_compute; reflexivity |].
    repeat split; vm_compute; reflexivity.
  - repeat split; vm_compute; reflexivity.
Qed.

(** ** The orchestrator *)

Section OrchestratorFacts.
Context {W : Type} `{World W}.

Lemma keeps_ret {A} (a : A) : keeps_agents (W := W) (St.ret a).
Proof. intros st. reflexivity. Qed.

Lemma keeps_bind {A B} (c : St.M (W := W) A) (k : A → St.M B) :
  keeps_agents c → (∀ a, keeps_agents (k a)) → keeps_agents (St.bind c k).
Proof.
  intros Hc Hk st. unfold St.bind. specialize (Hc st).
  destruct (c st) as [st1 a]. simpl in Hc. now rewrite Hk.
Qed.

Lemma keeps_call {A} (f : W → W * A) : keeps_agents (St.call f).
Proof. intros st. unfold St.call. now destruct (f (world st)). Qed.

Lemma keeps_load p : keeps_agents (W := W) (St.load p).
Proof. intros st. reflexivity. Qed.

Lemma keeps_store p s : keeps_agents (W := W) (St.store p s).
Proof. intros st. reflexivity. Qed.

Lemma keeps_alloc s : keeps_agents (W := W) (St.alloc s).
Proof. intros st. reflexivity. Qed.

Lemma keeps_log entry : keeps_agents (W := W) (St.log entry).
Proof. intros st. reflexivity. Qed.

(** Goes through a computation made of the operations above. *)
Ltac keeps :=
  repeat first
         [ apply keeps_ret | apply keeps_call | apply keeps_load
         | apply keeps_store | apply keeps_alloc | apply keeps_log
         | apply keeps_bind; [| intros ?]
         | match goal with
           | |- keeps_agents (match ?x with _ => _ end) => destruct x
           | |- keeps_agents (if ?b then _ else _) => destruct b
           end ].

Lemma StopSession_agents e session : 
  keeps_agents (W := W) (sandbox.StopSession e session).
Proof. unfold sandbox.StopSession. keeps. Qed.

Lemma removeWorktree_agents projectDir worktreeDir :
  keeps_agents (W := W) (orchestrator.removeWorktree projectDir worktreeDir).
Proof. unfold orchestrator.removeWorktree. keeps. Qed.

Lemma allocSessions_agents cs : keeps_agents (W := W) (sandbox.allocSessions cs).
Proof.
  induction cs as [|c cs IH]; simpl; [apply keeps_ret |].
  destruct (String.eqb _ "true"); [| exact IH].
  apply keeps_bind; [apply keeps_alloc | intros p].
  apply keeps_bind; [exact IH | intros ps]. apply keeps_ret.
Qed.

Lemma ListSessions_agents e : keeps_agents (W := W) (sandbox.ListSessions e).
Proof.
  unfold sandbox.ListSessions.
  apply keeps_bind; [apply keeps_call | intros [err | cs]];
    [apply keeps_ret |].
  apply keeps_bind; [apply allocSessions_agents | intros ?].
  apply keeps_ret.
Qed.

(** When the part of [StopAgent] after the resolution succeeds without a
    merge, the entry of the agent is deleted and no other entry is
    touched. *)
Lemma stopResolved_success o agentName session st st' :
  orchestrator.stopResolved o agentName false session st = (st', None) →
  agents st' = delete agentName (agents st).
Proof.
  unfold orchestrator.stopResolved, St.bind. simpl.
  pose proof (StopSession_agents (orchestrator.engine o) session st) as Hs.
  destruct (sandbox.StopSession _ session st) as [st1 [err |]];
    [discriminate |].
  simpl in Hs. unfold St.load, St.ret, St.get, St.set_agents. simpl.
  destruct (heap st1 !! session) as [s|]; [| discriminate].
  destruct (negb (Slice.is_empty (types.WorktreeDir s))).
  - pose proof (removeWorktree_agents (types.ProjectDir s)
                                      (types.WorktreeDir s) st1) as Hr.
    destruct (orchestrator.removeWorktree _ _ st1) as [st2 r].
    simpl in *. intros [= <-]. simpl. congruence.
  - simpl. intros [= <-]. simpl. congruence.
Qed.

Lemma StopAgent_success o agentName st st' :
  orchestrator.StopAgent o agentName false st = (st', None) →
  agents st' = delete agentName (agents st).
Proof.
  unfold orchestrator.StopAgent, St.bind, St.get. simpl.
  destruct (agents st !! agentName) as [session|];
    [apply stopResolved_success |].
  pose proof (ListSessions_agents (orchestrator.engine o) st) as Hl.
  destruct (sandbox.ListSessions _ st) as [st1 [err | sessions]];
    [discriminate |].
  unfold St.ret. simpl in *.
  destruct (orchestrator.findAgent _ _ _) as [session|]; [| discriminate].
  intros Hstop%stopResolved_success. congruence.
Qed.

(** C6.  [SpawnAgent] on a name that has an entry in the map fails at
    once with the "already exists" error and leaves the whole state as it
    was.  After a [StopAgent] without merge that succeeded, the entry of
    the name is deleted, the other entries are as before, and a
    [SpawnAgent] with the name does not fail with that error. *)
Theorem SpawnAgent_already_exists
        (o : orchestrator.Orchestrator) (projectDir agentName : string)
        (cfg : types.SandboxConfig) (st : state W) :
  (is_Some (agents st !! agentName) →
   orchestrator.SpawnAgent o projectDir agentName cfg st
   = (st, inl (Errorf "agent %q already exists" [agentName])))
  ∧ ∀ st',
      orchestrator.StopAgent o agentName false st = (st', None) →
      agents st' = delete agentName (agents st)
      ∧ agents st' !! agentName = None
      ∧ snd (orchestrator.SpawnAgent o projectDir agentName cfg st')
        ≠ inl (Errorf "agent %q already exists" [agentName]).
Proof.
  split.
  - intros [session Hs]. unfold orchestrator.SpawnAgent, St.bind, St.get.
    simpl. now rewrite Hs.
  - intros st' Hstop%StopAgent_success.
    assert (Hnone : agents st' !! agentName = None)
      by (rewrite Hstop; apply lookup_delete_eq).
    repeat split; [exact Hstop | exact Hnone |].
    unfold orchestrator.SpawnAgent, St.bind, St.get. simpl.
    rewrite Hnone. unfold St.ask, St.ret. simpl.
    destruct (Abs projectDir (world st')) as [err | dir];
      [discriminate |].
    destruct (orchestrator.createWorktree dir agentName st')
      as [st1 [err | worktreeDir]]; [discriminate |].
    destruct (sandbox.CreateSession _ _ _ _ _ st1)
      as [st2 [err | session]].
    + destruct (orchestrator.removeWorktree _ _ st2). discriminate.
    + unfold St.load, St.store, St.set_agents. simpl.
      destruct (heap st2 !! session); discriminate.
Qed.

End OrchestratorFacts.

Lemma SpawnAgent_already_exists_witness :
  is_Some (agents toy.st1 !! "x")
  ∧ orchestrator.SpawnAgent toy.orch "/proj" "x"
                            (types.Sandbox config.DefaultConfig) toy.st1
    = (toy.st1, inl (Errorf "agent %q already exists" ["x"]))
  ∧ snd (orchestrator.StopAgent toy.orch "x" false toy.st1) = None
  ∧ agents (fst (orchestrator.StopAgent toy.orch "x" false toy.st1)) = ∅
  ∧ is_Some (agents
               (fst (orchestrator.SpawnAgent
                       toy.orch "/proj" "x"
                       (types.Sandbox config.DefaultConfig)
                       (fst (orchestrator.StopAgent toy.orch "x" false
                                                    toy.st1))))
             !! "x").
Proof.
  destruct (SpawnAgent_already_exists
              toy.orch "/proj" "x" (types.Sandbox config.DefaultConfig)
              toy.st1) as [Hdup Hstop].
  assert (Hsome : is_Some (agents toy.st1 !! "x")) by (eexists; reflexivity).
  split; [exact Hsome |]. split; [exact (Hdup Hsome) |].
  destruct (orchestrator.StopAgent toy.orch "x" false toy.st1)
    as [st' res] eqn:Hr.
  assert (Hres : res = None) by (vm_compute in Hr; congruence).
  subst res. destruct (Hstop st' eq_refl) as (Hdel & _ & _).
  simpl. split; [reflexivity |]. split.
  - rewrite Hdel. vm_compute. reflexivity.
  - vm_compute in Hr. injection Hr as <-. vm_compute. eexists; reflexivity.
Defined.

(** ** The tests of the repository (policy tests of src/unnamed/part_009) *)

Example TestEvaluateCommand_AllowGit :
  forallb (fun cmd =>
             policy.Allowed
               (policy.EvaluateCommand (policy.New config.DefaultConfig) cmd))
          [ "git status"; "git commit -m 'test'"; "git push origin main";
            "npm install"; "npm run build"; "python test.py";
            "go build ./..."; "make build"; "ls -la"; "cat README.md" ]
  = true.
Proof. vm_compute. reflexivity. Qed.

Example TestEvaluateCommand_BlockDangerous :
  map (fun cmd =>
         let r := policy.EvaluateCommand (policy.New config.DefaultConfig)
                                         cmd in
         (policy.Allowed r, policy.Action r, policy.Reason r))
      [ "sudo apt install malware"; "rm -rf /"; "rm -rf /*";
        "chmod 777 /etc/passwd" ]
  = [ (false, types.ActionBlock, "Privilege escalation not allowed");
      (false, types.ActionBlock, "Root filesystem deletion blocked");
      (false, types.ActionBlock, "Root filesystem deletion blocked");
      (false, types.ActionBlock, "Overly permissive permissions blocked") ].
Proof. vm_compute. reflexivity. Qed.

Example TestEvaluateCommand_BlockUnknown :
  policy.Allowed
    (policy.EvaluateCommand (policy.New config.DefaultConfig)
                            "some-unknown-command --flag")
  = false.
Proof. vm_compute. reflexivity. Qed.

(** The variant of part_009 passes the file access tests. *)
Example TestEvaluateFileAccess_part_009 :
  map (fun path =>
         policy.Allowed
           (policy_part_009.EvaluateFileAccess
              (policy.New config.DefaultConfig) path))
      [ "/home/user/.env"; "/workspace/.env"; "/home/user/.ssh/id_rsa";
        "/home/user/.aws/credentials"; "/workspace/main.go";
        "/workspace/src/index.ts"; "/workspace/README.md"; "/etc/passwd" ]
  = [ false; false; false; false; true; true; true; false ].
Proof. vm_compute. reflexivity. Qed.

(** The engine of engine.go fails the second path of
    [TestEvaluateFileAccess_BlockSensitive]. *)
Example TestEvaluateFileAccess_engine_go :
  map (fun path =>
         policy.Allowed
           (policy.EvaluateFileAccess (policy.New config.DefaultConfig) path))
      [ "/home/user/.env"; "/workspace/.env"; "/home/user/.ssh/id_rsa";
        "/home/user/.aws/credentials"; "/workspace/main.go";
        "/workspace/src/index.ts"; "/workspace/README.md"; "/etc/passwd" ]
  = [ false; true; false; false; true; true; true; false ].
Proof. vm_compute. reflexivity. Qed.

(** * Further properties of the code *)

(** ** The policy engine *)

(** X1.  An allowed command matches no block rule; the result carries the
    first allow rule that matches, the action allow and no reason. *)
Theorem EvaluateCommand_allowed (e : policy.Engine) (command : string) :
  policy.Allowed (policy.EvaluateCommand e command) = true →
  spec.unmatched (types.Block (types.Rules (policy.config e)))
                 (strings.TrimSpace command)
  ∧ ∃ rule before after,
      types.Allow (types.Rules (policy.config e)) = before ++ rule :: after
      ∧ spec.unmatched before (strings.TrimSpace command)
      ∧ policy.matchPattern (types.Pattern rule) (strings.TrimSpace command)
        = true
      ∧ policy.EvaluateCommand e command
        = {| policy.Allowed := true; policy.Action := types.ActionAllow;
             policy.Rule := Some rule; policy.Reason := "" |}.
Proof.
  unfold policy.EvaluateCommand.
  destruct (policy.firstMatch (types.Block _) _) eqn:Hb; [discriminate |].
  destruct (policy.firstMatch (types.Allow _) _) as [rule|] eqn:Ha;
    [| discriminate].
  intros _. split; [now apply firstMatch_None |].
  apply firstMatch_Some in Ha as (before & after & Hl & Hu & Hm).
  exists rule, before, after. auto.
Qed.

Lemma EvaluateCommand_allowed_witness :
  policy.Allowed (policy.EvaluateCommand (policy.New config.DefaultConfig)
                                         "git status") = true
  ∧ spec.unmatched (types.Block (types.Rules config.DefaultConfig))
                   (strings.TrimSpace "git status").
Proof.
  assert (Ha : policy.Allowed
                 (policy.EvaluateCommand (policy.New config.DefaultConfig)
                                         "git status") = true)
    by (vm_compute; reflexivity).
  split; [exact Ha |].
  exact (proj1 (EvaluateCommand_allowed (policy.New config.DefaultConfig)
                                        "git status" Ha)).
Defined.

Lemma ascii_space_decode c s :
  props.ascii_space c = true →
  utf8.DecodeRuneInString (String c s) = (byte_val c, 1%nat)
  ∧ unicode.IsSpace (byte_val c) = true.
Proof.
  unfold props.ascii_space, utf8.DecodeRuneInString, unicode.IsSpace,
    utf8.RuneSelf.
  intros Hc.
  assert (Hb : 0x09 <= byte_val c <= 0x0D ∨ byte_val c = 0x20) by lia.
  destruct (Z.ltb_spec (byte_val c) 0x80); [| lia].
  destruct (Z.leb_spec (byte_val c) 0xFF); [| lia].
  split; [reflexivity |]. lia.
Qed.

Lemma TrimLeftFunc_blank ws s :
  props.blank ws = true →
  strings.TrimLeftFunc (ws +:+ s) unicode.IsSpace
  = strings.TrimLeftFunc s unicode.IsSpace.
Proof.
  unfold strings.TrimLeftFunc.
  induction ws as [|c ws IH]; intros Hb; [reflexivity |].
  simpl in Hb. apply andb_prop in Hb as [Hc Hb].
  rewrite append_cons. cbn [String.length strings.trimLeft].
  destruct (ascii_space_decode c (ws +:+ s) Hc) as [-> ->].
  simpl Slice.drop. now apply IH.
Qed.

(** X2.  White space before the command does not change the decision. *)
Theorem EvaluateCommand_leading_space
        (e : policy.Engine) (ws command : string) :
  props.blank ws = true →
  policy.EvaluateCommand e (ws +:+ command) = policy.EvaluateCommand e command.
Proof.
  intros Hb. unfold policy.EvaluateCommand, strings.TrimSpace,
    strings.TrimFunc.
  now rewrite (TrimLeftFunc_blank _ _ Hb).
Qed.

Lemma EvaluateCommand_leading_space_witness :
  policy.EvaluateCommand (policy.New config.DefaultConfig) "  	sudo ls"
  = policy.EvaluateCommand (policy.New config.DefaultConfig) "sudo ls".
Proof.
  apply (EvaluateCommand_leading_space (policy.New config.DefaultConfig)
                                       "  	" "sudo ls").
  vm_compute. reflexivity.
Defined.

(** ** Patterns without a space-star ending *)

Section PlainPatterns.

Lemma skipStars_other s :
  filepath.starts_with "*" s = false → filepath.skipStars false s = (false, s).
Proof. destruct s as [|c t]; simpl; [reflexivity | now intros ->]. Qed.

Lemma plain_no_star p q :
  spec.plain p = true → p ≠ "" → filepath.starts_with "*" (p +:+ q) = false.
Proof.
  destruct p as [|c p]; [congruence |].
  intros (Hc & _)%plain_cons _. rewrite append_cons. simpl.
  now rewrite Ascii.eqb_sym, Ascii.eqb_sym.
Qed.

Lemma HasSuffix_inv s suffix :
  strings.HasSuffix s suffix = true → ∃ t, s = t +:+ suffix.
Proof.
  unfold strings.HasSuffix. intros [_ Heq%String.eqb_eq]%andb_prop.
  remember (String.length s - String.length suffix)%nat as n.
  exists (Slice.take n s). rewrite <- Heq. symmetry. apply take_drop.
Qed.

Lemma append_inv_tail s : ∀ t c, s +:+ String c "" = t +:+ String c "" → s = t.
Proof.
  induction s as [|a s IH]; intros [|b t] c Heq; try reflexivity.
  - rewrite append_nil, append_cons in Heq. injection Heq as _ Heq.
    destruct t; discriminate.
  - rewrite append_nil, append_cons in Heq. injection Heq as _ Heq.
    destruct s; discriminate.
  - rewrite !append_cons in Heq. injection Heq as -> Heq.
    f_equal. now apply (IH t c).
Qed.

(** [filepath.Match] on a plain pattern: the name is the pattern. *)
Lemma Match_plain p name :
  spec.plain p = true →
  fst (filepath.Match p name) = String.eqb name p.
Proof.
  intros Hp. pose proof (Match_loop p name) as Hloop.
  destruct (String.eqb_spec p "") as [-> | Hne]; [now destruct name |].
  rewrite MatchLoop_step in Hloop by assumption.
  assert (Hscan : filepath.scanChunk p = (false, p, "")).
  { unfold filepath.scanChunk.
    rewrite skipStars_other
      by (rewrite <- (append_empty_r p); now apply plain_no_star).
    rewrite <- (append_empty_r p) at 1.
    rewrite (scan_plain _ _ Hp). simpl. now rewrite append_empty_r. }
  rewrite Hscan in Hloop. simpl andb in Hloop. cbv iota beta in Hloop.
  pose proof (matchChunk_loop p name) as Hc.
  rewrite matchChunkLoop_plain_any in Hc by (assumption || lia).
  injection Hc as Hc. rewrite <- Hc in Hloop. clear Hc.
  simpl orb in Hloop.
  assert (Hk : ∃ k, String.length p = S k)
    by (destruct p; [congruence | simpl; eauto]).
  destruct Hk as [k Hk].
  destruct (strings.HasPrefix name p) eqn:Hpre.
  - apply HasPrefix_inv in Hpre as [t ->].
    simpl negb in Hloop. cbv iota beta in Hloop.
    rewrite drop_append in Hloop. simpl Slice.is_empty in Hloop.
    rewrite orb_false_r, Hk in Hloop.
    destruct t as [|d t]; simpl in Hloop; injection Hloop as <-; simpl.
    + rewrite append_empty_r. symmetry. apply String.eqb_refl.
    + symmetry. apply eqb_append_self. discriminate.
  - simpl negb in Hloop. cbv iota beta in Hloop. rewrite Hk in Hloop.
    simpl in Hloop. injection Hloop as <-. simpl.
    symmetry. apply String.eqb_neq. intros ->.
    rewrite <- (append_empty_r p) in Hpre at 1.
    now rewrite HasPrefix_append in Hpre.
Qed.

(** [filepath.Match] on a plain prefix followed by a star: the name starts
    with the prefix and has no separator after it. *)
Lemma Match_plain_star p name :
  spec.plain p = true → p ≠ "" →
  fst (filepath.Match (p +:+ "*") name)
  = strings.HasPrefix name p
    && negb (strings.Contains (Slice.drop (String.length p) name) "/").
Proof.
  intros Hp Hne. pose proof (Match_loop (p +:+ "*") name) as Hloop.
  rewrite MatchLoop_step in Hloop by (destruct p; discriminate).
  assert (Hscan : filepath.scanChunk (p +:+ "*") = (false, p, "*")).
  { unfold filepath.scanChunk.
    rewrite skipStars_other by now apply plain_no_star.
    rewrite (scan_plain _ _ Hp). simpl. now rewrite append_empty_r. }
  rewrite Hscan in Hloop. simpl andb in Hloop. cbv iota beta in Hloop.
  pose proof (matchChunk_loop p name) as Hc.
  rewrite matchChunkLoop_plain_any in Hc by (assumption || lia).
  injection Hc as Hc. rewrite <- Hc in Hloop. clear Hc.
  simpl orb in Hloop. rewrite length_append, Nat.add_comm in Hloop.
  destruct (strings.HasPrefix name p) eqn:Hpre; simpl in Hloop.
  - rewrite orb_true_r in Hloop. now injection Hloop as <-.
  - assert (Hk : ∃ k, String.length p = S k)
      by (destruct p; [congruence | simpl; eauto]).
    destruct Hk as [k Hk]. rewrite Hk in Hloop. simpl in Hloop.
    now injection Hloop as <-.
Qed.

End PlainPatterns.

(** X3.  A pattern without any of the characters star, question mark,
    opening bracket and backslash matches the command that is equal to it
    and no other. *)
Theorem matchPattern_plain (pattern command : string) :
  spec.plain pattern = true →
  policy.matchPattern pattern command = String.eqb command pattern.
Proof.
  intros Hp. unfold policy.matchPattern.
  assert (Hs : strings.HasSuffix pattern " *" = false).
  { destruct (strings.HasSuffix pattern " *") eqn:Hs; [| reflexivity].
    apply HasSuffix_inv in Hs as [t ->]. exfalso.
    clear -Hp. induction t as [|c t IH]; [discriminate |].
    rewrite append_cons in Hp. simpl in Hp.
    apply andb_prop in Hp as [_ Hp]. auto. }
  assert (Hstar : strings.HasPrefix pattern "*" = false).
  { rewrite HasPrefix_char. destruct pattern as [|c p]; [reflexivity |].
    now apply plain_cons in Hp as (Hc & _). }
  rewrite Hs, Hstar. simpl.
  destruct (String.eqb command pattern) eqn:Heq; [reflexivity |].
  now rewrite Match_plain, Heq.
Qed.

Lemma matchPattern_plain_witness :
  policy.matchPattern "rm -rf /" "rm -rf /" = true
  ∧ policy.matchPattern "rm -rf /" "rm -rf /home" = false.
Proof.
  split.
  - rewrite (matchPattern_plain "rm -rf /" "rm -rf /" eq_refl). reflexivity.
  - rewrite (matchPattern_plain "rm -rf /" "rm -rf /home" eq_refl).
    reflexivity.
Defined.

(** X4.  A pattern made of a plain prefix that does not end in a space,
    followed by a star, matches the commands that start with the prefix
    and have no slash after it: the star of the glob match does not cross
    a separator. *)
Theorem matchPattern_trailing_star (prefix command : string) :
  spec.plain prefix = true → prefix ≠ "" →
  strings.HasSuffix prefix " " = false →
  policy.matchPattern (prefix +:+ "*") command
  = strings.HasPrefix command prefix
    && negb (strings.Contains
               (Slice.drop (String.length prefix) command) "/").
Proof.
  intros Hp Hne Hsp. unfold policy.matchPattern.
  assert (Hs : strings.HasSuffix (prefix +:+ "*") " *" = false).
  { destruct (strings.HasSuffix (prefix +:+ "*") " *") eqn:Hs;
      [| reflexivity].
    apply HasSuffix_inv in Hs as [t Ht]. exfalso.
    replace (t +:+ " *") with ((t +:+ " ") +:+ "*") in Ht
      by (rewrite append_assoc; reflexivity).
    apply append_inv_tail in Ht. subst prefix.
    now rewrite HasSuffix_append in Hsp. }
  assert (Hstar : strings.HasPrefix (prefix +:+ "*") "*" = false)
    by (rewrite HasPrefix_char; now apply plain_no_star).
  rewrite Hs, Hstar. simpl.
  destruct (String.eqb_spec command (prefix +:+ "*")) as [-> | _];
    [| now apply Match_plain_star].
  now rewrite HasPrefix_append, drop_append.
Qed.

Lemma matchPattern_trailing_star_witness :
  policy.matchPattern "rm -rf /*" "rm -rf /etc" = true
  ∧ policy.matchPattern "rm -rf /*" "rm -rf /etc/passwd" = false.
Proof.
  split.
  - exact (eq_trans
             (matchPattern_trailing_star "rm -rf /" "rm -rf /etc" eq_refl
                                         ltac:(discriminate) eq_refl)
             eq_refl).
  - exact (eq_trans
             (matchPattern_trailing_star "rm -rf /" "rm -rf /etc/passwd"
                                         eq_refl ltac:(discriminate) eq_refl)
             eq_refl).
Defined.

(** X5.  Neither variant of [EvaluateFileAccess] allows a path that does
    not begin with [/workspace]. *)
Theorem EvaluateFileAccess_outside_workspace
        (e : policy.Engine) (path : string) :
  strings.HasPrefix path "/workspace" = false →
  policy.Allowed (policy.EvaluateFileAccess e path) = false
  ∧ policy.Allowed (policy_part_009.EvaluateFileAccess e path) = false.
Proof.
  intros Hout.
  unfold policy.EvaluateFileAccess, policy_part_009.EvaluateFileAccess,
    policy_part_009.blockedSensitive.
  rewrite Hout. split; repeat case_match; reflexivity.
Qed.

Lemma EvaluateFileAccess_outside_workspace_witness :
  policy.Allowed (policy.EvaluateFileAccess (policy.New config.DefaultConfig)
                                            "/etc/passwd") = false
  ∧ policy.Allowed
      (policy_part_009.EvaluateFileAccess (policy.New config.DefaultConfig)
                                          "/etc/passwd") = false.
Proof.
  apply (EvaluateFileAccess_outside_workspace
           (policy.New config.DefaultConfig) "/etc/passwd").
  reflexivity.
Defined.

Lemma EvaluateCommand_blocked_reason_witness :
  Forall (fun r => types.Reason r ≠ "")
         (types.Block (types.Rules config.DefaultConfig))
  ∧ policy.Reason (policy.EvaluateCommand (policy.New config.DefaultConfig)
                                          "dd if=disk.img")
    ≠ "".
Proof.
  assert (Hall : Forall (fun r => types.Reason r ≠ "")
                        (types.Block (types.Rules config.DefaultConfig)))
    by (repeat constructor; discriminate).
  split; [exact Hall |].
  apply (EvaluateCommand_blocked_reason (policy.New config.DefaultConfig)
                                        "dd if=disk.img" Hall).
  vm_compute. reflexivity.
Defined.

Lemma EvaluateFileAccess_blocked_reason_witness :
  policy.Reason (policy.EvaluateFileAccess (policy.New config.DefaultConfig)
                                           "/etc/passwd") ≠ ""
  ∧ policy.Reason
      (policy_part_009.EvaluateFileAccess (policy.New config.DefaultConfig)
                                          "/workspace/.env") ≠ "".
Proof.
  split.
  - apply (proj1 (EvaluateFileAccess_blocked_reason
                    (policy.New config.DefaultConfig) "/etc/passwd")).
    reflexivity.
  - apply (proj2 (EvaluateFileAccess_blocked_reason
                    (policy.New config.DefaultConfig) "/workspace/.env")).
    reflexivity.
Defined.

(** ** The enforcement shell *)

Section ShellFacts.

Variable glob : string → string → bool.

Lemma scan_block_None rules cmd :
  shell.scan_block glob rules cmd = None
  ↔ props.shell_unmatched glob rules cmd.
Proof.
  unfold props.shell_unmatched.
  induction rules as [|r rules IH]; simpl; [split; auto |].
  destruct (shell.match_pattern glob (shell.pattern_of r) cmd) eqn:Hm.
  - split; [discriminate |]. intros [Hr _]%Forall_cons. congruence.
  - rewrite IH. split; [auto | now intros [_ ?]%Forall_cons].
Qed.


Lemma scan_allow_true rules cmd :
  shell.scan_allow glob rules cmd = true
  ↔ Exists (fun r => shell.match_pattern glob (shell.pattern_of r) cmd
                     = true) rules.
Proof.
  induction rules as [|r rules IH]; simpl.
  - split; [discriminate | intros H; inversion H].
  - rewrite Exists_cons.
    destruct (shell.match_pattern glob (shell.pattern_of r) cmd);
      [split; auto |].
    rewrite IH. split; [auto | intros [? | ?]; [discriminate | assumption]].
Qed.

(** X6.  With a policy file, the shell permits a command exactly when no
    block pattern matches it and some allow pattern does, the patterns
    being those that the shell has read from the file: a matching block
    rule denies whatever the allow rules are, and a command matched by
    nothing is denied. *)
Theorem check_policy_permits (pf : artifact.policyFile) (cmd : string) :
  fst (shell.check_policy glob (Some pf) cmd) = true
  ↔ props.shell_unmatched glob (artifact.Block pf) cmd
    ∧ Exists (fun r => shell.match_pattern glob (shell.pattern_of r) cmd
                       = true) (artifact.Allow pf).
Proof.
  unfold shell.check_policy.
  destruct (shell.scan_block glob (artifact.Block pf) cmd) as [reason|]
    eqn:Hb.
  - simpl. split; [discriminate |]. intros [Hu%scan_block_None _].
    congruence.
  - apply scan_block_None in Hb. rewrite <- scan_allow_true.
    destruct (shell.scan_allow glob (artifact.Allow pf) cmd); simpl.
    + tauto.
    + split; [discriminate | intros [_ [=]]].
Qed.


End ShellFacts.


(** ** The sandbox engine, further *)

Section SandboxMore.
Context {W : Type} `{World W}.

(** Running a command in the container changes the outside world only. *)
Lemma execInContainer_frame session cmd (st : state W) :
  let st' := fst (sandbox.execInContainer session cmd st) in
  heap st' = heap st ∧ audit_log st' = audit_log st
  ∧ checkpoints st' = checkpoints st ∧ agents st' = agents st.
Proof.
  unfold sandbox.execInContainer, St.bind, St.load, St.call, St.ret. simpl.
  destruct (heap st !! session) as [s|]; [| now simpl].
  destruct (ContainerExecCreate _ _ _) as [w1 [err | execID]]; simpl;
    [auto |].
  destruct (ContainerExecAttach _ _) as [w2 [err | conn]]; simpl; [auto |].
  destruct (ReadAll _ _) as [w3 [err | output]]; simpl; auto.
Qed.

(** X8.  With a policy engine, a command that the policy does not allow
    never reaches the container: [ExecCommand] returns the policy error
    with the command and the reason, the daemon is not called (with an
    auditor the clock is read once and one entry is logged), and the
    sessions are untouched. *)
Theorem ExecCommand_policy_blocked
        (e : sandbox.Engine) (p : policy.Engine) (session : loc)
        (s : types.Session) (cmd : list string) (st : state W) :
  sandbox.policy e = Some p →
  heap st !! session = Some s →
  policy.Allowed (policy.EvaluateCommand p (strings.Join cmd " ")) = false →
  let result := policy.EvaluateCommand p (strings.Join cmd " ") in
  let st' := fst (sandbox.ExecCommand e session cmd st) in
  snd (sandbox.ExecCommand e session cmd st)
  = inl (Errorf "policy blocked: %s (reason: %s)"
                [strings.Join cmd " "; policy.Reason result])
  ∧ world st' = (if sandbox.auditor e then fst (Now (world st))
                 else world st)
  ∧ heap st' = heap st
  ∧ length (audit_log st')
    = (length (audit_log st) + if sandbox.auditor e then 1 else 0)%nat.
Proof.
  intros Hp Hs Hblocked. simpl.
  unfold sandbox.ExecCommand. rewrite Hp.
  unfold St.bind, St.call, St.load, St.log, St.ret.
  destruct (sandbox.auditor e); simpl.
  - destruct (Now (world st)) as [w now]. simpl. rewrite Hs. simpl.
    rewrite Hblocked. simpl. rewrite length_app. simpl. auto.
  - rewrite Hblocked. simpl. repeat split. lia.
Qed.

(** X9.  With a policy engine and an auditor, every [ExecCommand] on a
    session appends exactly one entry to the audit log, whether the command
    is allowed or not and whatever the daemon answers: the entry carries
    the session, the command joined with spaces, and the action, the reason
    and the pattern of the policy decision. *)
Theorem ExecCommand_audited
        (e : sandbox.Engine) (p : policy.Engine) (session : loc)
        (s : types.Session) (cmd : list string) (st : state W) :
  sandbox.policy e = Some p →
  sandbox.auditor e = true →
  heap st !! session = Some s →
  let result := policy.EvaluateCommand p (strings.Join cmd " ") in
  ∃ entry,
    audit_log (fst (sandbox.ExecCommand e session cmd st))
    = audit_log st ++ [entry]
    ∧ types.SessionID entry = types.ID s
    ∧ types.EventType entry = "command_exec"
    ∧ types.Command entry = strings.Join cmd " "
    ∧ types.AuditAction entry = policy.Action result
    ∧ types.AuditReason entry = policy.Reason result
    ∧ types.RulePattern entry
      = default "" (types.Pattern <$> policy.Rule result).
Proof.
  intros Hp Ha Hs. simpl.
  unfold sandbox.ExecCommand. rewrite Hp, Ha.
  unfold St.bind, St.call, St.load, St.log, St.ret.
  destruct (Now (world st)) as [w now]. simpl. rewrite Hs. simpl.
  eexists. split.
  - destruct (policy.Allowed _); simpl; [| reflexivity].
    match goal with
    | |- context [sandbox.execInContainer session cmd ?st1] =>
      destruct (execInContainer_frame session cmd st1) as (_ & -> & _)
    end.
    reflexivity.
  - simpl. repeat split. now destruct (policy.Rule _).
Qed.


(** What the loop of [ListSessions] does to the sessions. *)
Lemma allocSessions_spec cs (st : state W) :
  let st' := fst (sandbox.allocSessions cs st) in
  let ps := snd (sandbox.allocSessions cs st) in
  Forall2 (fun p c => heap st' !! p = Some (sandbox.sessionOf c))
          ps (filter (fun c => props.managed c = true) cs)
  ∧ NoDup ps
  ∧ (∀ p, p ∈ ps → heap st !! p = None)
  ∧ (∀ p s, heap st !! p = Some s → heap st' !! p = Some s)
  ∧ world st' = world st ∧ audit_log st' = audit_log st.
Proof.
  simpl. revert st.
  induction cs as [|c cs IH]; intros st; simpl.
  - split; [constructor |]. split; [constructor |].
    split; [intros p Hp; inversion Hp | auto].
  - rewrite filter_cons.
    change (String.eqb
              (default "" (docker.Labels c !! sandbox.ContainerLabel))
              "true") with (props.managed c).
    destruct (decide (props.managed c = true)) as [Hm | Hm].
    + rewrite Hm.
      unfold St.bind, St.alloc, St.ret. simpl.
      set (p := fresh (dom (heap st))).
      set (st1 := mkState (world st) (<[p := sandbox.sessionOf c]> (heap st))
                          (audit_log st) (checkpoints st) (agents st)).
      specialize (IH st1).
      destruct (sandbox.allocSessions cs st1) as [st2 ps]. simpl in *.
      destruct IH as (Hall & Hnd & Hfresh & Hkeep & Hw & Hl).
      assert (Hp : heap st !! p = None)
        by (apply not_elem_of_dom; apply is_fresh).
      repeat split; auto.
      * constructor; [| exact Hall]. apply Hkeep, lookup_insert_eq.
      * apply NoDup_cons. split; [| exact Hnd].
        intros Hin%Hfresh. now rewrite lookup_insert_eq in Hin.
      * intros q [-> | Hq]%elem_of_cons; [exact Hp |].
        apply Hfresh in Hq.
        destruct (decide (q = p)) as [-> | Hqp];
          [now rewrite lookup_insert_eq in Hq |].
        now rewrite lookup_insert_ne in Hq.
      * intros q s Hq. apply Hkeep.
        rewrite lookup_insert_ne; [exact Hq | congruence].
    + apply not_true_is_false in Hm. rewrite Hm. apply IH.
Qed.

(** X11.  [ListSessions], when the daemon lists its containers, returns
    one new session for each container that carries the management label,
    in the order of the daemon's list, built from the labels and the state
    of the container; the sessions are distinct new objects, the sessions
    that existed are as they were, and nothing is logged.  When the daemon
    fails, the error is wrapped and the sessions are as they were. *)
Theorem ListSessions_result (e : sandbox.Engine) (st : state W) :
  let st' := fst (sandbox.ListSessions e st) in
  match snd (ContainerList (world st)),
        snd (sandbox.ListSessions e st) with
  | inr containers, inr sessions =>
    Forall2 (fun p c => heap st' !! p = Some (sandbox.sessionOf c))
            sessions (filter (fun c => props.managed c = true) containers)
    ∧ NoDup sessions
    ∧ (∀ p, p ∈ sessions → heap st !! p = None)
    ∧ (∀ p s, heap st !! p = Some s → heap st' !! p = Some s)
    ∧ audit_log st' = audit_log st
  | inl err, inl err' =>
    err' = ErrorfW "listing containers: %w" [] err ∧ heap st' = heap st
  | _, _ => False
  end.
Proof.
  simpl. unfold sandbox.ListSessions, St.bind, St.call, St.ret.
  destruct (ContainerList (world st)) as [w1 [err | containers]]; simpl;
    [auto |].
  match goal with
  | |- context [sandbox.allocSessions containers ?st1] =>
    pose proof (allocSessions_spec containers st1) as Hspec
  end.
  simpl in Hspec.
  destruct (sandbox.allocSessions containers _) as [st2 ps]. simpl in *.
  tauto.
Qed.

(** X12.  [CreateSession]: when the container cannot be built or started,
    no session and no audit entry is added; otherwise the result is a new
    session object, running, for the agent,
    without worktree, the sessions that existed are untouched, and the
    audit log grows by one entry exactly when there is an auditor. *)
Theorem CreateSession_result
        (e : sandbox.Engine) (projectDir : string)
        (cfg : types.SandboxConfig) (agentName : string)
        (secrets : option (gmap string string)) (st : state W) :
  let st' := fst (sandbox.CreateSession e projectDir cfg agentName secrets
                                        st) in
  match snd (sandbox.CreateSession e projectDir cfg agentName secrets st)
  with
  | inl _ => heap st' = heap st ∧ audit_log st' = audit_log st
  | inr p =>
    heap st !! p = None
    ∧ (∃ s, heap st' = <[p := s]> (heap st)
            ∧ types.State s = types.SessionRunning
            ∧ types.AgentName s = agentName
            ∧ types.WorktreeDir s = "")
    ∧ length (audit_log st')
      = (length (audit_log st) + if sandbox.auditor e then 1 else 0)%nat
  end.
Proof.
  simpl.
  unfold sandbox.CreateSession, St.bind, St.call, St.alloc, St.log, St.ret.
  destruct (StartSandbox _ _ _ _ _ _) as [w1 [err | [[sid dir] cid]]];
    simpl; [auto |].
  destruct (Now w1) as [w2 created]. simpl.
  destruct (Now w2) as [w3 updated]. simpl.
  assert (Hp : heap st !! fresh (dom (heap st)) = None)
    by (apply not_elem_of_dom; apply is_fresh).
  destruct (sandbox.auditor e); simpl.
  - destruct (Now w3) as [w4 now]. simpl. rewrite length_app. simpl.
    repeat split; [exact Hp |]. eexists. repeat split.
  - repeat split; [exact Hp | | lia]. eexists. repeat split.
Qed.

End SandboxMore.

(** X13.  [buildMounts] never fails.  Its first mount binds the project
    directory at [/workspace], writable; the others are, one for each
    configured read-only path and in their order, a bind of the path onto
    itself, read-only.  So every mount is a bind, and the only writable
    one is the project directory at [/workspace]. *)
Theorem buildMounts_writable
        (projectDir : string) (cfg : types.SandboxConfig) :
  snd (sandbox_mounts.buildMounts projectDir cfg) = None
  ∧ head (fst (sandbox_mounts.buildMounts projectDir cfg))
    = Some {| mount.Type_ := mount.TypeBind; mount.Source := projectDir;
              mount.Target := "/workspace"; mount.ReadOnly := false |}
  ∧ Forall2 (fun m ro => mount.Type_ m = mount.TypeBind
                         ∧ mount.Source m = ro
                         ∧ mount.Target m = ro
                         ∧ mount.ReadOnly m = true)
            (tail (fst (sandbox_mounts.buildMounts projectDir cfg)))
            (types.ReadOnly cfg)
  ∧ ∀ m, m ∈ fst (sandbox_mounts.buildMounts projectDir cfg) →
         mount.Type_ m = mount.TypeBind
         ∧ (mount.ReadOnly m = false →
            mount.Source m = projectDir ∧ mount.Target m = "/workspace").
Proof.
  unfold sandbox_mounts.buildMounts. simpl.
  split; [reflexivity |]. split; [reflexivity |]. split.
  - induction (types.ReadOnly cfg) as [|ro ros IH]; constructor;
      [repeat split | exact IH].
  - intros m [-> | Hin]%elem_of_cons; [now split |].
    apply list_elem_of_fmap in Hin as (ro & -> & _).
    split; [reflexivity | discriminate].
Qed.

Lemma ExecCommand_policy_blocked_witness :
  policy.Allowed (policy.EvaluateCommand (policy.New config.DefaultConfig)
                                         "rm -rf /") = false
  ∧ snd (sandbox.ExecCommand scene.engine_with_policy 0%nat
                             ["rm"; "-rf"; "/"] toy.st1)
    = inl (Errorf "policy blocked: %s (reason: %s)"
                  ["rm -rf /"; "Root filesystem deletion blocked"])
  ∧ toy.calls (world (fst (sandbox.ExecCommand scene.engine_with_policy
                                               0%nat ["rm"; "-rf"; "/"]
                                               toy.st1)))
    = ["now"].
Proof.
  destruct (ExecCommand_policy_blocked
              scene.engine_with_policy (policy.New config.DefaultConfig)
              0%nat toy.session1 ["rm"; "-rf"; "/"] toy.st1
              eq_refl eq_refl eq_refl) as (Hr & Hw & _).
  split; [reflexivity |]. split.
  - rewrite Hr. vm_compute. reflexivity.
  - rewrite Hw. vm_compute. reflexivity.
Defined.

Lemma ExecCommand_audited_witness :
  ∃ entry,
    audit_log (fst (sandbox.ExecCommand scene.engine_with_policy 0%nat
                                        ["git"; "status"] toy.st1))
    = [entry]
    ∧ types.SessionID entry = "cs-x-1"
    ∧ types.Command entry = "git status"
    ∧ types.AuditAction entry = types.ActionAllow.
Proof.
  destruct (ExecCommand_audited
              scene.engine_with_policy (policy.New config.DefaultConfig)
              0%nat toy.session1 ["git"; "status"] toy.st1
              eq_refl eq_refl eq_refl)
    as (entry & Hlog & Hid & _ & Hcmd & Hact & _).
  exists entry. split; [exact Hlog |]. split; [exact Hid |].
  split; [exact Hcmd |]. rewrite Hact. vm_compute. reflexivity.
Defined.


(** ** The rollback manager, further *)

Section RollbackMore.
Context {W : Type} `{World W}.

Lemma findTarget_None cps id :
  Forall (fun cp => types.CheckpointID cp ≠ id) cps →
  rollback.findTarget cps id = None.
Proof.
  unfold rollback.findTarget.
  induction 1 as [|cp cps Hne _ IH]; simpl; [reflexivity |].
  now destruct (String.eqb_spec (types.CheckpointID cp) id).
Qed.

Lemma findTarget_new cps cp :
  Forall (fun c => types.CheckpointID c ≠ types.CheckpointID cp) cps →
  rollback.findTarget (cps ++ [cp]) (types.CheckpointID cp) = Some cp.
Proof.
  unfold rollback.findTarget.
  induction 1 as [|c cps Hne _ IH]; simpl.
  - now rewrite String.eqb_refl.
  - now destruct (String.eqb_spec (types.CheckpointID c)
                                  (types.CheckpointID cp)).
Qed.



(** X15.  [Rollback] to an id that no checkpoint of the session has, or
    for a session without checkpoints, fails before anything is done: the
    container is not stopped, the daemon is not called, the state is as it
    was, and the error names the checkpoint or the session. *)
Theorem Rollback_unknown_checkpoint
        (m : rollback.Manager) (session : loc) (s : types.Session)
        (checkpointID : string) (st : state W) :
  heap st !! session = Some s →
  Forall (fun cp => types.CheckpointID cp ≠ checkpointID)
         (default [] (checkpoints st !! types.ID s)) →
  rollback.Rollback m session checkpointID st
  = (st,
     Some (match checkpoints st !! types.ID s with
           | Some _ => Errorf "checkpoint %s not found" [checkpointID]
           | None => Errorf "no checkpoints for session %s" [types.ID s]
           end)).
Proof.
  intros Hs Hall.
  unfold rollback.Rollback, St.bind, St.load, St.get, St.ret. simpl.
  rewrite Hs.
  destruct (checkpoints st !! types.ID s) as [cps|]; [| reflexivity].
  simpl in Hall. now rewrite findTarget_None.
Qed.

Lemma save_frame m (st : state W) :
  let st' := fst (rollback.save m st) in
  heap st' = heap st ∧ audit_log st' = audit_log st
  ∧ checkpoints st' = checkpoints st ∧ agents st' = agents st.
Proof.
  simpl. unfold rollback.save.
  destruct (Slice.is_empty (rollback.storagePath m)); [now simpl |].
  unfold St.bind, St.get, St.call. simpl.
  now destruct (WriteIndex _ _ _).
Qed.

(** What [CreateCheckpoint] does to the state. *)
Lemma CreateCheckpoint_inv m session description s (st : state W) :
  heap st !! session = Some s →
  let st' := fst (rollback.CreateCheckpoint m session description st) in
  heap st' = heap st ∧ audit_log st' = audit_log st
  ∧ agents st' = agents st
  ∧ match snd (rollback.CreateCheckpoint m session description st) with
    | inl _ => checkpoints st' = checkpoints st
    | inr cp =>
      types.CheckpointSessionID cp = types.ID s
      ∧ types.Description cp = description
      ∧ checkpoints st'
        = <[types.ID s :=
              default [] (checkpoints st !! types.ID s) ++ [cp]]>
            (checkpoints st)
    end.
Proof.
  intros Hs. simpl.
  unfold rollback.CreateCheckpoint, St.bind, St.call, St.load, St.get,
    St.set_checkpoints, St.ret.
  destruct (Now (world st)) as [w1 now]. simpl. rewrite Hs.
  destruct (ContainerCommit _ _ _ _ _) as [w2 [err | imageID]]; simpl;
    [auto |].
  destruct (Now w2) as [w3 created]. simpl.
  match goal with
  | |- context [rollback.save m ?st1] =>
    destruct (save_frame m st1) as (Hh & Hl & Hc & Ha);
      destruct (rollback.save m st1) as [st2 r]
  end.
  simpl in *. rewrite Hh, Hl, Hc, Ha. auto 10.
Qed.

(** X16.  [CreateCheckpoint] on a session: when the daemon cannot commit
    the container, the checkpoints are as they were; otherwise the new
    checkpoint, for this session and with the description given, is the
    last of the session's list, the earlier ones are before it in their
    order, and the lists of the other sessions are unchanged; this holds
    also when the index cannot be written.  No session is changed. *)
Theorem CreateCheckpoint_appends
        (m : rollback.Manager) (session : loc) (s : types.Session)
        (description : string) (st : state W) :
  heap st !! session = Some s →
  let st' := fst (rollback.CreateCheckpoint m session description st) in
  heap st' = heap st
  ∧ match snd (rollback.CreateCheckpoint m session description st) with
    | inl _ => checkpoints st' = checkpoints st
    | inr cp =>
      types.CheckpointSessionID cp = types.ID s
      ∧ types.Description cp = description
      ∧ snd (rollback.ListCheckpoints m (types.ID s) st')
        = snd (rollback.ListCheckpoints m (types.ID s) st) ++ [cp]
      ∧ ∀ other, other ≠ types.ID s →
                 snd (rollback.ListCheckpoints m other st')
                 = snd (rollback.ListCheckpoints m other st)
    end.
Proof.
  intros Hs. simpl.
  destruct (CreateCheckpoint_inv m session description s st Hs)
    as (Hh & _ & _ & Hc).
  split; [exact Hh |].
  destruct (snd (rollback.CreateCheckpoint m session description st))
    as [err | cp]; [exact Hc |].
  destruct Hc as (Hid & Hd & Hc).
  unfold rollback.ListCheckpoints, St.bind, St.get, St.ret. simpl.
  rewrite Hc. repeat split; [exact Hid | exact Hd | |].
  - now rewrite lookup_insert_eq.
  - intros other Hne. now rewrite lookup_insert_ne.
Qed.

(** X17.  After a [CreateCheckpoint] that succeeded with an id that no
    earlier checkpoint of the session has, [RollbackToLatest] restores the
    session from the checkpoint just created. *)
Theorem CreateCheckpoint_then_RollbackToLatest
        (m : rollback.Manager) (session : loc) (s : types.Session)
        (description : string) (st st' : state W) (cp : types.Checkpoint) :
  heap st !! session = Some s →
  rollback.CreateCheckpoint m session description st = (st', inr cp) →
  Forall (fun c => types.CheckpointID c ≠ types.CheckpointID cp)
         (default [] (checkpoints st !! types.ID s)) →
  rollback.RollbackToLatest m session st'
  = rollback.restore session s cp st'.
Proof.
  intros Hs Hcreate Hnew.
  destruct (CreateCheckpoint_inv m session description s st Hs)
    as (Hh & _ & _ & Hc).
  rewrite Hcreate in Hh, Hc. simpl in Hh, Hc. destruct Hc as (_ & _ & Hc).
  unfold rollback.RollbackToLatest, rollback.Rollback, St.bind, St.load,
    St.get, St.ret.
  simpl. rewrite Hh, Hs, Hc, lookup_insert_eq, last_snoc. simpl.
  rewrite Hh, Hs, Hc, lookup_insert_eq. simpl.
  now rewrite findTarget_new.
Qed.

End RollbackMore.

Lemma Rollback_succeeds_witness :
  snd (rollback.Rollback toy.manager 0%nat "cs-cp-2" toy.st1) = None.
Proof.
  apply (Rollback_succeeds toy.manager 0%nat "cs-cp-2" toy.st1
                           toy.session1 [toy.c1; toy.c2; toy.c3] toy.c2
                           (toy.tick "create image-2"
                              (toy.tick "remove container-0"
                                 (toy.tick "stop container-0" toy.init)))
                           "container-3"
                           (toy.tick "start container-3"
                              (toy.tick "create image-2"
                                 (toy.tick "remove container-0"
                                    (toy.tick "stop container-0"
                                              toy.init)))));
    reflexivity.
Defined.

Lemma Rollback_unknown_checkpoint_witness :
  rollback.Rollback toy.manager 0%nat "cs-cp-9" toy.st1
  = (toy.st1, Some (Errorf "checkpoint %s not found" ["cs-cp-9"])).
Proof.
  apply (Rollback_unknown_checkpoint toy.manager 0%nat toy.session1
                                     "cs-cp-9" toy.st1 eq_refl).
  repeat constructor; discriminate.
Defined.

Lemma CreateCheckpoint_appends_witness :
  (types.CheckpointID
     <$> snd (rollback.ListCheckpoints
                toy.manager "cs-x-1"
                (fst (rollback.CreateCheckpoint toy.manager 0%nat "before"
                                                scene.st_late))))
  = ["cs-cp-1"; "cs-cp-2"; "cs-cp-3"; "cs-cp-7"].
Proof.
  pose proof (CreateCheckpoint_appends toy.manager 0%nat toy.session1
                                       "before" scene.st_late eq_refl)
    as [_ Hres].
  destruct (snd (rollback.CreateCheckpoint toy.manager 0%nat "before"
                                           scene.st_late))
    as [err | cp] eqn:Hcp; [vm_compute in Hcp; congruence |].
  destruct Hres as (_ & _ & Hlist & _).
  change (types.ID toy.session1) with "cs-x-1" in Hlist.
  rewrite Hlist. vm_compute in Hcp. injection Hcp as <-.
  vm_compute. reflexivity.
Defined.

Lemma CreateCheckpoint_then_RollbackToLatest_witness :
  ∃ st' cp,
    rollback.CreateCheckpoint toy.manager 0%nat "before" scene.st_late
    = (st', inr cp)
    ∧ types.CheckpointID cp = "cs-cp-7"
    ∧ rollback.RollbackToLatest toy.manager 0%nat st'
      = rollback.restore 0%nat toy.session1 cp st'.
Proof.
  destruct (rollback.CreateCheckpoint toy.manager 0%nat "before"
                                      scene.st_late)
    as [st' [err | cp]] eqn:Hcreate; [vm_compute in Hcreate; congruence |].
  exists st', cp. split; [reflexivity |].
  assert (Hid : types.CheckpointID cp = "cs-cp-7")
    by (vm_compute in Hcreate; injection Hcreate as _ <-; reflexivity).
  split; [exact Hid |].
  apply (CreateCheckpoint_then_RollbackToLatest
           toy.manager 0%nat toy.session1 "before" scene.st_late st' cp
           eq_refl Hcreate).
  rewrite Hid. repeat constructor; discriminate.
Defined.

(** ** The orchestrator, further *)

Section OrchestratorMore.
Context {W : Type} `{World W}.

Ltac keeps_agents_tac :=
  repeat first
         [ apply keeps_ret | apply keeps_call | apply keeps_load
         | apply keeps_store | apply keeps_alloc | apply keeps_log
         | apply keeps_bind; [| intros ?]
         | match goal with
           | |- keeps_agents (match ?x with _ => _ end) => destruct x
           | |- keeps_agents (if ?b then _ else _) => destruct b
           end ].

Lemma createWorktree_agents projectDir agentName :
  keeps_agents (W := W) (orchestrator.createWorktree projectDir agentName).
Proof. unfold orchestrator.createWorktree. keeps_agents_tac. Qed.

Lemma mergeWorktree_agents projectDir agentName :
  keeps_agents (W := W) (orchestrator.mergeWorktree projectDir agentName).
Proof. unfold orchestrator.mergeWorktree. keeps_agents_tac. Qed.

Lemma CreateSession_agents e projectDir cfg agentName secrets :
  keeps_agents (W := W)
               (sandbox.CreateSession e projectDir cfg agentName secrets).
Proof. unfold sandbox.CreateSession. keeps_agents_tac. Qed.

(** The worktree of an agent is at a fixed place under the project. *)
Lemma createWorktree_dir projectDir agentName (st : state W) dir :
  snd (orchestrator.createWorktree projectDir agentName st) = inr dir →
  dir = filepath.Join [projectDir; ".claudeshield"; "worktrees"; agentName].
Proof.
  unfold orchestrator.createWorktree, St.bind, St.call, St.ret. simpl.
  repeat match goal with
         | |- context [let '(_, _) := ?c in _] =>
           destruct c as [? [? [?|]]] || destruct c as [? ?]
         end; simpl; congruence.
Qed.

(** The new session of [CreateSession]. *)
Lemma CreateSession_session e projectDir cfg agentName secrets
      (st st' : state W) p :
  sandbox.CreateSession e projectDir cfg agentName secrets st
  = (st', inr p) →
  ∃ s, heap st' !! p = Some s
       ∧ types.AgentName s = agentName
       ∧ types.State s = types.SessionRunning.
Proof.
  unfold sandbox.CreateSession, St.bind, St.call, St.alloc, St.log, St.ret.
  destruct (StartSandbox _ _ _ _ _ _) as [w1 [err | [[sid dir] cid]]];
    simpl; [discriminate |].
  destruct (Now w1) as [w2 created]. simpl.
  destruct (Now w2) as [w3 updated]. simpl.
  destruct (sandbox.auditor e); simpl.
  - destruct (Now w3) as [w4 now]. simpl. intros [= <- <-]. simpl.
    rewrite lookup_insert_eq. eauto.
  - intros [= <- <-]. simpl. rewrite lookup_insert_eq. eauto.
Qed.

(** What [SpawnAgent] does to the map of the agents and to the session. *)
Lemma SpawnAgent_inv o projectDir agentName cfg (st : state W) :
  let st' := fst (orchestrator.SpawnAgent o projectDir agentName cfg st) in
  match snd (orchestrator.SpawnAgent o projectDir agentName cfg st) with
  | inl _ => agents st' = agents st
  | inr p =>
    agents st !! agentName = None
    ∧ agents st' = <[agentName := p]> (agents st)
    ∧ ∃ s dir,
        heap st' !! p = Some s
        ∧ Abs projectDir (world st) = inr dir
        ∧ types.AgentName s = agentName
        ∧ types.State s = types.SessionRunning
        ∧ types.WorktreeDir s
          = filepath.Join [dir; ".claudeshield"; "worktrees"; agentName]
  end.
Proof.
  simpl. unfold orchestrator.SpawnAgent, St.bind, St.get. simpl.
  destruct (agents st !! agentName) as [session|] eqn:Hname;
    [reflexivity |].
  unfold St.ask, St.ret. simpl.
  destruct (Abs projectDir (world st)) as [err | dir] eqn:Habs;
    [reflexivity |].
  pose proof (createWorktree_agents dir agentName st) as Hwt.
  pose proof (createWorktree_dir dir agentName st) as Hdir.
  destruct (orchestrator.createWorktree dir agentName st)
    as [st1 [err | worktreeDir]]; simpl in *; [exact Hwt |].
  specialize (Hdir _ eq_refl). subst worktreeDir.
  pose proof (CreateSession_agents (orchestrator.engine o)
                (filepath.Join [dir; ".claudeshield"; "worktrees";
                                agentName])
                cfg agentName None st1) as Hcs.
  destruct (sandbox.CreateSession _ _ _ _ _ st1)
    as [st2 [err | session]] eqn:Hcreate; simpl in Hcs.
  - pose proof (removeWorktree_agents
                  dir
                  (filepath.Join [dir; ".claudeshield"; "worktrees";
                                  agentName]) st2) as Hrm.
    destruct (orchestrator.removeWorktree _ _ st2) as [st3 r].
    simpl in *. congruence.
  - apply CreateSession_session in Hcreate as (s & Hs & Hagent & Hstate).
    unfold St.load, St.store, St.set_agents. simpl. rewrite Hs. simpl.
    split; [reflexivity |]. split; [congruence |].
    exists (orchestrator.setWorktreeDir
              s (filepath.Join [dir; ".claudeshield"; "worktrees";
                                agentName])), dir.
    rewrite lookup_insert_eq. auto.
Qed.

(** X18.  [SpawnAgent]: when it fails, the map of the agents is as it
    was.  When it succeeds, the name was free, the map has the new session
    under the name and is otherwise as before, and the session is a
    running session of the agent whose worktree is
    [.claudeshield/worktrees/<name>] under the absolute project
    directory. *)
Theorem SpawnAgent_result
        (o : orchestrator.Orchestrator) (projectDir agentName : string)
        (cfg : types.SandboxConfig) (st : state W) :
  let st' := fst (orchestrator.SpawnAgent o projectDir agentName cfg st) in
  match snd (orchestrator.SpawnAgent o projectDir agentName cfg st) with
  | inl _ => snd (orchestrator.ListAgents o st')
             = snd (orchestrator.ListAgents o st)
  | inr p =>
    agents st !! agentName = None
    ∧ snd (orchestrator.ListAgents o st')
      = <[agentName := p]> (snd (orchestrator.ListAgents o st))
    ∧ ∃ s dir,
        heap st' !! p = Some s
        ∧ Abs projectDir (world st) = inr dir
        ∧ types.AgentName s = agentName
        ∧ types.State s = types.SessionRunning
        ∧ types.WorktreeDir s
          = filepath.Join [dir; ".claudeshield"; "worktrees"; agentName]
  end.
Proof.
  exact (SpawnAgent_inv o projectDir agentName cfg st).
Qed.

(** X19.  After a [SpawnAgent] that succeeded, another [SpawnAgent] with
    the same name, for any project and configuration, fails with the
    "already exists" error and changes nothing: no worktree is made, no
    container is started. *)
Theorem SpawnAgent_twice
        (o : orchestrator.Orchestrator) (projectDir agentName : string)
        (cfg : types.SandboxConfig) (st st' : state W) (p : loc) :
  orchestrator.SpawnAgent o projectDir agentName cfg st = (st', inr p) →
  ∀ projectDir' cfg',
    orchestrator.SpawnAgent o projectDir' agentName cfg' st'
    = (st', inl (Errorf "agent %q already exists" [agentName])).
Proof.
  intros Hspawn projectDir' cfg'.
  pose proof (SpawnAgent_inv o projectDir agentName cfg st) as Hinv.
  rewrite Hspawn in Hinv. simpl in Hinv. destruct Hinv as (_ & Hmap & _).
  unfold orchestrator.SpawnAgent, St.bind, St.get. simpl.
  now rewrite Hmap, lookup_insert_eq.
Qed.

Lemma stopResolved_inv o agentName merge session (st : state W) :
  let st' := fst (orchestrator.stopResolved o agentName merge session st) in
  agents st'
  = match snd (orchestrator.stopResolved o agentName merge session st) with
    | None => delete agentName (agents st)
    | Some _ => agents st
    end.
Proof.
  simpl. unfold orchestrator.stopResolved, St.bind.
  pose proof (StopSession_agents (orchestrator.engine o) session st) as Hs.
  destruct (sandbox.StopSession _ session st) as [st1 [err |]];
    simpl in Hs; [exact Hs |].
  unfold St.load, St.get, St.set_agents.
  destruct (heap st1 !! session) as [s|]; [| exact Hs].
  assert (Hm : keeps_agents (W := W)
                 (if merge && negb (Slice.is_empty (types.WorktreeDir s))
                  then orchestrator.mergeWorktree (types.ProjectDir s)
                                                  agentName
                  else St.ret None)).
  { destruct (_ && _); [apply mergeWorktree_agents | apply keeps_ret]. }
  specialize (Hm st1).
  destruct ((if merge && negb (Slice.is_empty (types.WorktreeDir s))
             then orchestrator.mergeWorktree (types.ProjectDir s) agentName
             else St.ret None) st1) as [st2 [err |]]; simpl in Hm;
    [unfold St.ret; simpl; congruence |].
  assert (Hr : keeps_agents (W := W)
                 (if negb (Slice.is_empty (types.WorktreeDir s))
                  then orchestrator.removeWorktree (types.ProjectDir s)
                                                   (types.WorktreeDir s)
                  else St.ret None)).
  { destruct (negb _); [apply removeWorktree_agents | apply keeps_ret]. }
  specialize (Hr st2).
  destruct ((if negb (Slice.is_empty (types.WorktreeDir s))
             then orchestrator.removeWorktree (types.ProjectDir s)
                                              (types.WorktreeDir s)
             else St.ret None) st2) as [st3 r]; simpl in Hr.
  unfold St.ret. simpl. congruence.
Qed.

Lemma StopAgent_inv o agentName merge (st : state W) :
  let st' := fst (orchestrator.StopAgent o agentName merge st) in
  agents st'
  = match snd (orchestrator.StopAgent o agentName merge st) with
    | None => delete agentName (agents st)
    | Some _ => agents st
    end.
Proof.
  simpl. unfold orchestrator.StopAgent, St.bind, St.get. simpl.
  destruct (agents st !! agentName) as [session|];
    [apply stopResolved_inv |].
  pose proof (ListSessions_agents (orchestrator.engine o) st) as Hl.
  destruct (sandbox.ListSessions _ st) as [st1 [err | sessions]];
    simpl in *; [exact Hl |].
  unfold St.ret.
  destruct (orchestrator.findAgent _ _ _) as [session|]; simpl;
    [| exact Hl].
  pose proof (stopResolved_inv o agentName merge session st1) as Hstop.
  simpl in Hstop. now rewrite Hstop, Hl.
Qed.

(** X20.  [StopAgent], with or without merge: when it fails (the agent
    is not found, the container cannot be stopped or removed, the merge
    fails), the map of the agents is as it was, so the agent stays
    registered; when it succeeds, the name is deleted from the map and
    every other agent stays, also when the worktree could not be
    removed. *)
Theorem StopAgent_result
        (o : orchestrator.Orchestrator) (agentName : string) (merge : bool)
        (st : state W) :
  let st' := fst (orchestrator.StopAgent o agentName merge st) in
  snd (orchestrator.ListAgents o st')
  = match snd (orchestrator.StopAgent o agentName merge st) with
    | None => delete agentName (snd (orchestrator.ListAgents o st))
    | Some _ => snd (orchestrator.ListAgents o st)
    end.
Proof.
  exact (StopAgent_inv o agentName merge st).
Qed.

(** X21.  Round trip: after a [SpawnAgent] and a [StopAgent] of the same
    name that both succeeded, the map of the agents is what it was before
    the agent was spawned. *)
Theorem SpawnAgent_StopAgent_round_trip
        (o : orchestrator.Orchestrator) (projectDir agentName : string)
        (cfg : types.SandboxConfig) (merge : bool)
        (st st1 st2 : state W) (p : loc) :
  orchestrator.SpawnAgent o projectDir agentName cfg st = (st1, inr p) →
  orchestrator.StopAgent o agentName merge st1 = (st2, None) →
  snd (orchestrator.ListAgents o st2) = snd (orchestrator.ListAgents o st).
Proof.
  intros Hspawn Hstop.
  pose proof (SpawnAgent_inv o projectDir agentName cfg st) as Hinv.
  rewrite Hspawn in Hinv. simpl in Hinv. destruct Hinv as (Hfree & Hmap & _).
  pose proof (StopAgent_inv o agentName merge st1) as Hdel.
  rewrite Hstop in Hdel. simpl in Hdel.
  unfold orchestrator.ListAgents, St.bind, St.get, St.ret. simpl.
  rewrite Hdel, Hmap. now apply delete_insert_id.
Qed.

End OrchestratorMore.

Lemma SpawnAgent_twice_witness :
  ∃ st' p,
    orchestrator.SpawnAgent toy.orch "/proj" "y"
                            (types.Sandbox config.DefaultConfig) toy.st1
    = (st', inr p)
    ∧ orchestrator.SpawnAgent toy.orch "/elsewhere" "y"
                              (types.Sandbox config.DefaultConfig) st'
      = (st', inl (Errorf "agent %q already exists" ["y"])).
Proof.
  destruct (orchestrator.SpawnAgent toy.orch "/proj" "y"
                                    (types.Sandbox config.DefaultConfig)
                                    toy.st1)
    as [st' [err | p]] eqn:Hspawn; [vm_compute in Hspawn; congruence |].
  exists st', p. split; [reflexivity |].
  apply (SpawnAgent_twice toy.orch "/proj" "y"
                          (types.Sandbox config.DefaultConfig) toy.st1 st' p
                          Hspawn).
Defined.

Lemma SpawnAgent_StopAgent_round_trip_witness :
  ∃ st1 p st2,
    orchestrator.SpawnAgent toy.orch "/proj" "y"
                            (types.Sandbox config.DefaultConfig) toy.st1
    = (st1, inr p)
    ∧ orchestrator.StopAgent toy.orch "y" true st1 = (st2, None)
    ∧ snd (orchestrator.ListAgents toy.orch st2) = {[ "x" := 0%nat ]}.
Proof.
  destruct (orchestrator.SpawnAgent toy.orch "/proj" "y"
                                    (types.Sandbox config.DefaultConfig)
                                    toy.st1)
    as [st1 [err | p]] eqn:Hspawn; [vm_compute in Hspawn; congruence |].
  destruct (orchestrator.StopAgent toy.orch "y" true st1)
    as [st2 [err |]] eqn:Hstop.
  { vm_compute in Hspawn. injection Hspawn as <- <-.
    vm_compute in Hstop. congruence. }
  exists st1, p, st2. split; [reflexivity |]. split; [exact Hstop |].
  exact (SpawnAgent_StopAgent_round_trip
           toy.orch "/proj" "y" (types.Sandbox config.DefaultConfig) true
           toy.st1 st1 st2 p Hspawn Hstop).
Defined.

(** ** Secrets from the environment *)

Section EnvFacts.

Variable Getenv : string → string.

Lemma loadLoop_missing keys : ∀ result missing,
  snd (secrets.loadLoop Getenv keys result missing)
  = missing ++ filter (fun k => Getenv k = "") keys.
Proof.
  induction keys as [|key keys IH]; intros result missing; simpl.
  - now rewrite app_nil_r.
  - rewrite filter_cons.
    destruct (String.eqb_spec (Getenv key) "") as [Heq | Hne].
    + rewrite IH, decide_True by exact Heq. now rewrite <- app_assoc.
    + rewrite IH, decide_False by exact Hne. reflexivity.
Qed.

Lemma loadLoop_values keys : ∀ result missing k v,
  fst (secrets.loadLoop Getenv keys result missing) !! k = Some v
  ↔ (k ∈ keys ∧ Getenv k ≠ "" ∧ v = Getenv k)
    ∨ (¬ (k ∈ keys ∧ Getenv k ≠ "") ∧ result !! k = Some v).
Proof.
  induction keys as [|key keys IH]; intros result missing k v; simpl.
  - split; [intros Hk; right; split; [| exact Hk] | intros [Hk | Hk]].
    + intros [Hin _]. inversion Hin.
    + destruct Hk as [Hin _]. inversion Hin.
    + apply Hk.
  - destruct (String.eqb_spec (Getenv key) "") as [Heq | Hne];
      rewrite IH; clear IH.
    + split; intros [(Hin & Hset & Hv) | (Hno & Hk)].
      * left. split; [now apply elem_of_cons; right | auto].
      * right. split; [| exact Hk].
        intros [[-> | Hin]%elem_of_cons Hset]; [congruence | auto].
      * apply elem_of_cons in Hin as [-> | Hin]; [congruence |].
        left. auto.
      * right. split; [| exact Hk].
        intros [Hin Hset]. apply Hno. split; [| exact Hset].
        apply elem_of_cons. now right.
    + split; intros [(Hin & Hset & Hv) | (Hno & Hk)].
      * left. split; [now apply elem_of_cons; right | auto].
      * destruct (decide (k = key)) as [-> | Hkk].
        -- rewrite lookup_insert_eq in Hk. injection Hk as <-.
           left. split; [apply elem_of_cons; now left | auto].
        -- rewrite lookup_insert_ne in Hk by congruence.
           right. split; [| exact Hk].
           intros [[-> | Hin]%elem_of_cons Hset]; [congruence | auto].
      * destruct (decide (k ∈ keys)) as [Hin' | Hout]; [left; auto |].
        apply elem_of_cons in Hin as [-> | Hin]; [| contradiction].
        right. split; [tauto |]. now rewrite lookup_insert_eq, Hv.
      * right.
        assert (Hkk : k ≠ key).
        { intros ->. apply Hno. split; [apply elem_of_cons; now left |].
          exact Hne. }
        split.
        -- intros [Hin Hset]. apply Hno. split; [| exact Hset].
           apply elem_of_cons. now right.
        -- rewrite lookup_insert_ne by congruence. exact Hk.
Qed.

(** X22.  The map that [EnvProvider.Load] returns, with or without an
    error, holds exactly the keys asked for whose variable is set to a
    string that is not empty, each with the value of its variable. *)
Theorem Load_values (keys : list string) (k v : string) :
  fst (secrets.Load Getenv keys) !! k = Some v
  ↔ k ∈ keys ∧ Getenv k = v ∧ v ≠ "".
Proof.
  unfold secrets.Load.
  pose proof (loadLoop_values keys ∅ [] k v) as Hv.
  destruct (secrets.loadLoop Getenv keys ∅ []) as [result missing].
  simpl in Hv.
  assert (Hfst : ∀ (e1 e2 : option error) (b : bool),
             fst (if b then (result, e1) else (result, e2)) = result)
    by (now intros ? ? []).
  rewrite Hfst, Hv, lookup_empty. split.
  - intros [(Hin & Hset & ->) | [_ [=]]]. auto.
  - intros (Hin & <- & Hset). left. auto.
Qed.

(** X23.  [EnvProvider.Load] returns no error exactly when every key
    asked for is set to a string that is not empty; otherwise the error
    lists the keys that are not, in the order asked and as often as asked,
    separated by a comma and a space. *)
Theorem Load_missing (keys : list string) :
  snd (secrets.Load Getenv keys)
  = match filter (fun k => Getenv k = "") keys with
    | [] => None
    | missing =>
      Some (Errorf "environment variables not set: %s"
                   [strings.Join missing ", "])
    end
  ∧ (snd (secrets.Load Getenv keys) = None
     ↔ Forall (fun k => Getenv k ≠ "") keys).
Proof.
  assert (Herr : snd (secrets.Load Getenv keys)
                 = match filter (fun k => Getenv k = "") keys with
                   | [] => None
                   | missing =>
                     Some (Errorf "environment variables not set: %s"
                                  [strings.Join missing ", "])
                   end).
  { unfold secrets.Load.
    pose proof (loadLoop_missing keys ∅ []) as Hm.
    destruct (secrets.loadLoop Getenv keys ∅ []) as [result missing].
    simpl in Hm. subst missing.
    now destruct (filter _ keys). }
  split; [exact Herr |]. rewrite Herr. clear Herr.
  induction keys as [|key keys IH]; [now split |].
  rewrite filter_cons, Forall_cons.
  destruct (decide (Getenv key = "")) as [Heq | Hne].
  - split; [discriminate | tauto].
  - rewrite IH. tauto.
Qed.

End EnvFacts.

(** ** The audit command *)

(** X24.  [truncate] with a bound of at least three returns a string of
    at most that many bytes: the string itself when it fits, and otherwise
    its first bytes followed by three dots, of exactly the bound's length.
    With a bound below three and a longer string, it panics. *)
Theorem truncate_bound (s : string) (maxLen : Z) :
  (3 <= maxLen →
   ∃ t, cmd.truncate s maxLen = inr t
        ∧ Z.of_nat (String.length t) <= maxLen
        ∧ (Z.of_nat (String.length s) <= maxLen → t = s)
        ∧ (maxLen < Z.of_nat (String.length s) →
           Z.of_nat (String.length t) = maxLen
           ∧ strings.HasSuffix t "..." = true
           ∧ strings.HasPrefix s (Slice.take (Z.to_nat (maxLen - 3)) t)
             = true))
  ∧ (maxLen < 3 → maxLen < Z.of_nat (String.length s) →
     cmd.truncate s maxLen = inl (Panic "slice bounds out of range")).
Proof.
  unfold cmd.truncate. split.
  - intros Hmax.
    destruct (Z.leb_spec (Z.of_nat (String.length s)) maxLen) as [Hle | Hgt].
    + exists s. split; [reflexivity |]. split; [exact Hle |].
      split; [reflexivity | lia].
    + destruct (Z.ltb_spec (maxLen - 3) 0) as [Hneg | _]; [lia |].
      eexists. split; [reflexivity |].
      assert (Hlen : Z.of_nat
                       (String.length
                          (Slice.take (Z.to_nat (maxLen - 3)) s +:+ "..."))
                     = maxLen).
      { rewrite length_append, length_take. simpl. lia. }
      split; [lia |]. split; [lia |]. intros _.
      split; [exact Hlen |]. split; [apply HasSuffix_append |].
      assert (Htake : String.length (Slice.take (Z.to_nat (maxLen - 3)) s)
                      = Z.to_nat (maxLen - 3))
        by (rewrite length_take; lia).
      rewrite <- Htake at 1. rewrite take_append.
      rewrite <- (take_drop (Z.to_nat (maxLen - 3)) s) at 1.
      apply HasPrefix_append.
  - intros Hmax Hlen.
    destruct (Z.leb_spec (Z.of_nat (String.length s)) maxLen); [lia |].
    destruct (Z.ltb_spec (maxLen - 3) 0); [reflexivity | lia].
Qed.

Lemma truncate_bound_witness :
  (∃ t, cmd.truncate "cs-claude-agent-1700000000000" 20 = inr t
        ∧ Z.of_nat (String.length t) = 20
        ∧ strings.HasSuffix t "..." = true)
  ∧ cmd.truncate "abc" 2 = inl (Panic "slice bounds out of range").
Proof.
  split.
  - destruct (proj1 (truncate_bound "cs-claude-agent-1700000000000" 20)
                    ltac:(lia)) as (t & Ht & _ & _ & Hlong).
    destruct (Hlong ltac:(simpl; lia)) as (Hlen & Hdots & _).
    exists t. auto.
  - apply (proj2 (truncate_bound "abc" 2)); simpl; lia.
Defined.

(** X25.  The [--last] filter keeps the end of the list: with a positive
    number below the length, exactly that many entries, the last ones in
    their order; with any other number (zero, negative, the length or
    more), all of them. *)
Theorem lastEntries_suffix {A : Type} (last : Z) (entries : list A) :
  ∃ dropped,
    entries = dropped ++ cmd.lastEntries last entries
    ∧ Z.of_nat (length (cmd.lastEntries last entries))
      = (if (0 <? last) && (last <? Z.of_nat (length entries))
         then last else Z.of_nat (length entries)).
Proof.
  unfold cmd.lastEntries.
  destruct (Z.ltb_spec 0 last) as [Hpos | Hneg]; simpl.
  - destruct (Z.ltb_spec last (Z.of_nat (length entries))) as [Hlt | Hge].
    + exists (take (Z.to_nat (Z.of_nat (length entries) - last)) entries).
      rewrite firstn_skipn, length_skipn. split; [reflexivity | lia].
    + now exists [].
  - now exists [].
Qed.
